(** * capture-website: option resolution and capture invocation

    A shallow embedding of [plugins/capture-website/src/index.ts]
    ([isUrl], [makeOptions], [render]) together with the fragment of
    JavaScript it relies on: binary64 numbers, truthiness, string to
    number conversion, template literals, [String.prototype.split],
    regular expression matching and objects with dynamic properties. *)

From Stdlib Require Import ZArith NArith Bool List Ascii Lia.
From Stdlib Require Import Floats.SpecFloat.
From Stdlib Require Import DecimalString DecimalN DecimalPos DecimalFacts.
From stdpp Require Import base strings gmap.

Local Open Scope Z_scope.

(** ** Strings

    A JavaScript string is a sequence of UTF-16 code units.  The model
    holds a string in UTF-8, as the string literals of this development
    are: [units] gives the code units of a string, and [of_units] a
    string for given code units.  A character of the ASCII range is one
    byte, and that byte is part of no other character, so that matching
    ASCII characters, comparing with ASCII text, splitting at an ASCII
    character and appending to ASCII text are the same on the bytes as
    on the code units.  This is all the program does with the characters
    of a string, but for the conversion to a Number, which goes by the
    code units. *)

Definition code (c : ascii) : N := Ascii.N_of_ascii c.

Definition chars (s : string) : list ascii := Stdlib.Strings.String.list_ascii_of_string s.
Definition text (cs : list ascii) : string := Stdlib.Strings.String.string_of_list_ascii cs.

Module UTF8.
Local Open Scope N_scope.

(** The six bits of a continuation byte, [10xxxxxx]. *)
Definition continuation (c : ascii) : option N :=
  if (128 <=? code c) && (code c <? 192) then Some (code c - 128) else None.

(** U+FFFD, which stands for a byte that begins no character. *)
Definition replacement : N := 0xFFFD.

(** The surrogate pair of a code point above U+FFFF. *)
Definition surrogates (p : N) : list N :=
  [0xD800 + (p - 0x10000) / 0x400; 0xDC00 + (p - 0x10000) mod 0x400].

(** The code units of a sequence of bytes.  A character is one to four
    bytes; one above U+FFFF is two code units.  A byte that begins no
    character, or one that is written longer than it need be, is not
    ASCII and not white space: it is read as U+FFFD.  A surrogate that
    is written by itself is read as it is. *)
Fixpoint decode (cs : list ascii) : list N :=
  match cs with
  | [] => []
  | c0 :: r0 =>
      let n0 := code c0 in
      let replaced := replacement :: decode r0 in
      if n0 <? 0x80 then n0 :: decode r0
      else if n0 <? 0xC0 then replaced
      else if n0 <? 0xE0 then
        match r0 with
        | c1 :: r1 =>
            match continuation c1 with
            | Some b1 =>
                let p := (n0 - 0xC0) * 64 + b1 in
                if 0x80 <=? p then p :: decode r1 else replaced
            | None => replaced
            end
        | _ => replaced
        end
      else if n0 <? 0xF0 then
        match r0 with
        | c1 :: c2 :: r2 =>
            match continuation c1, continuation c2 with
            | Some b1, Some b2 =>
                let p := ((n0 - 0xE0) * 64 + b1) * 64 + b2 in
                if 0x800 <=? p then p :: decode r2 else replaced
            | _, _ => replaced
            end
        | _ => replaced
        end
      else if n0 <? 0xF8 then
        match r0 with
        | c1 :: c2 :: c3 :: r3 =>
            match continuation c1, continuation c2, continuation c3 with
            | Some b1, Some b2, Some b3 =>
                let p := (((n0 - 0xF0) * 64 + b1) * 64 + b2) * 64 + b3 in
                if (0x10000 <=? p) && (p <=? 0x10FFFF)
                then surrogates p ++ decode r3 else replaced
            | _, _, _ => replaced
            end
        | _ => replaced
        end
      else replaced
  end.

Definition byte (n : N) : ascii := Ascii.ascii_of_N n.

(** The bytes of one code unit, a surrogate by itself. *)
Definition encode_unit (u : N) : list ascii :=
  if u <? 0x80 then [byte u]
  else if u <? 0x800 then [byte (0xC0 + u / 64); byte (0x80 + u mod 64)]
  else [byte (0xE0 + u / 4096); byte (0x80 + u / 64 mod 64); byte (0x80 + u mod 64)].

Definition encode (us : list N) : list ascii := concat (map encode_unit us).

End UTF8.

(** The code units of a string. *)
Definition units (s : string) : list N := UTF8.decode (chars s).

(** A string with the code units [us]. *)
Definition of_units (us : list N) : string := text (UTF8.encode us).

(** [s] starts with [prefix] *)
Definition starts_with (prefix s : string) : Prop :=
  exists rest, s = prefix +:+ rest.

(** ** Numbers

    A JavaScript Number is an IEEE 754 binary64 value: the Standard
    Library's [spec_float] at precision 53 and maximal exponent 1024. *)

Module Number.

Definition number : Type := spec_float.

Definition prec : Z := 53.
Definition emax : Z := 1024.

Definition NaN : number := S754_nan.
Definition Infinity (neg : bool) : number := S754_infinity neg.

(** The Number value for an integer: the nearest binary64, ties to even. *)
Definition of_Z (z : Z) : number := binary_normalize prec emax z 0 false.

(** [x] is the integer [z], exactly. *)
Definition integer (x : number) (z : Z) : Prop :=
  match x with
  | S754_zero _ => z = 0
  | S754_finite neg m e => e <= 0 /\ cond_Zopp neg (Zpos m) = z * 2 ^ (- e)
  | _ => False
  end.

(** The Number value for the ratio [p / q], correctly rounded. *)
Definition of_ratio (neg : bool) (p q : positive) : number :=
  let '(mz, ez, lz) := SFdiv_core_binary prec emax (Zpos p) 0 (Zpos q) 0 in
  binary_round_aux prec emax neg mz ez lz.

(** The Number value for the decimal [m * 10^e]. *)
Definition of_decimal (neg : bool) (m : N) (e : Z) : number :=
  match m with
  | N0 => S754_zero neg
  | Npos p =>
      if 0 <=? e then of_Z (cond_Zopp neg (Zpos p * 10 ^ e))
      else of_ratio neg p (Z.to_pos (10 ^ (- e)))
  end.

(** ToBoolean on a Number: [+0], [-0] and [NaN] are falsy. *)
Definition to_boolean (x : number) : bool :=
  match x with
  | S754_zero _ | S754_nan => false
  | _ => true
  end.

(** *** StringToNumber (ECMA-262, 7.1.4.1.1) *)

(** StrWhiteSpaceChar: TAB, LF, VT, FF, CR, SP, NBSP, the other space
    separators of Unicode (U+1680, U+2000 to U+200A, U+202F, U+205F,
    U+3000), LS, PS and ZWNBSP. *)
Definition is_white_space (c : N) : bool :=
  ((9 <=? c) && (c <=? 13) || (c =? 0x20) || (c =? 0xA0) || (c =? 0x1680)
   || (0x2000 <=? c) && (c <=? 0x200A) || (c =? 0x2028) || (c =? 0x2029)
   || (c =? 0x202F) || (c =? 0x205F) || (c =? 0x3000) || (c =? 0xFEFF))%N.

(** The value of [c] as a digit of the given radix, if it is one. *)
Definition digit_value (radix : N) (c : N) : option N :=
  let v := (if (48 <=? c) && (c <=? 57) then Some (c - 48)
            else if (97 <=? c) && (c <=? 102) then Some (c - 87)
            else if (65 <=? c) && (c <=? 70) then Some (c - 55)
            else None)%N in
  match v with
  | Some d => if (d <? radix)%N then Some d else None
  | None => None
  end.

Definition is_digit (radix : N) (c : N) : bool :=
  match digit_value radix c with Some _ => true | None => false end.

(** The number written by a sequence of digits, most significant first. *)
Definition digits_value (radix : N) (ds : list N) : N :=
  fold_left (fun acc c => acc * radix + default 0 (digit_value radix c))%N ds 0%N.

Fixpoint span (p : N -> bool) (cs : list N) : list N * list N :=
  match cs with
  | c :: cs' =>
      if p c then let '(a, b) := span p cs' in (c :: a, b) else ([], cs)
  | [] => ([], [])
  end.

Fixpoint drop_white_space (cs : list N) : list N :=
  match cs with
  | c :: cs' => if is_white_space c then drop_white_space cs' else cs
  | [] => []
  end.

Definition trim (cs : list N) : list N :=
  rev (drop_white_space (rev (drop_white_space cs))).

Definition is_nonempty {A} (l : list A) : bool :=
  match l with [] => false | _ => true end.

(** DecimalDigits, all the way to the end of the input. *)
Definition all_digits (radix : N) (ds : list N) : bool :=
  is_nonempty ds && forallb (is_digit radix) ds.

(** An optional sign: whether it is [-], and what follows it. *)
Definition strip_sign (cs : list N) : bool * list N :=
  match cs with
  | c :: r =>
      if N.eqb c (code "+") then (false, r)
      else if N.eqb c (code "-") then (true, r)
      else (false, cs)
  | [] => (false, [])
  end.

(** SignedInteger *)
Definition parse_signed_integer (cs : list N) : option Z :=
  let '(neg, ds) := strip_sign cs in
  if all_digits 10 ds then Some (cond_Zopp neg (Z.of_N (digits_value 10 ds)))
  else None.

(** ExponentPart, optional, followed by the end of the input. *)
Definition parse_exponent_part (cs : list N) : option Z :=
  match cs with
  | [] => Some 0
  | c :: r =>
      if N.eqb c (code "e") || N.eqb c (code "E") then parse_signed_integer r
      else None
  end.

(** StrUnsignedDecimalLiteral other than [Infinity]: the mantissa and
    the decimal exponent of the literal. *)
Definition parse_unsigned_decimal (cs : list N) : option (N * Z) :=
  let '(ip, r1) := span (is_digit 10) cs in
  let integral :=
    if is_nonempty ip then
      match parse_exponent_part r1 with
      | Some e => Some (digits_value 10 ip, e)
      | None => None
      end
    else None in
  match r1 with
  | c :: r2 =>
      if N.eqb c (code ".") then
        let '(fp, r3) := span (is_digit 10) r2 in
        if is_nonempty ip || is_nonempty fp then
          match parse_exponent_part r3 with
          | Some e => Some (digits_value 10 (ip ++ fp), e - Z.of_nat (length fp))
          | None => None
          end
        else None
      else integral
  | [] => integral
  end.

(** StrDecimalLiteral *)
Definition parse_decimal (cs : list N) : option number :=
  let '(neg, body) := strip_sign cs in
  if bool_decide (body = units "Infinity") then Some (Infinity neg)
  else
    match parse_unsigned_decimal body with
    | Some (m, e) => Some (of_decimal neg m e)
    | None => None
    end.

(** NonDecimalIntegerLiteral: [0b], [0o] and [0x] literals. *)
Definition parse_non_decimal (cs : list N) : option number :=
  match cs with
  | z :: r :: ds =>
      let radix :=
        if N.eqb r (code "x") || N.eqb r (code "X") then Some 16%N
        else if N.eqb r (code "o") || N.eqb r (code "O") then Some 8%N
        else if N.eqb r (code "b") || N.eqb r (code "B") then Some 2%N
        else None in
      match radix with
      | Some b =>
          if N.eqb z (code "0") && all_digits b ds
          then Some (of_Z (Z.of_N (digits_value b ds)))
          else None
      | None => None
      end
  | _ => None
  end.

Definition StringToNumber (s : string) : number :=
  match trim (units s) with
  | [] => S754_zero false
  | cs =>
      match parse_non_decimal cs with
      | Some x => x
      | None =>
          match parse_decimal cs with
          | Some x => x
          | None => NaN
          end
      end
  end.

(** *** Number::toString (ECMA-262, 6.1.6.1.20), radix 10 *)

Definition number_eqb (x y : number) : bool :=
  match x, y with
  | S754_zero a, S754_zero b => Bool.eqb a b
  | S754_infinity a, S754_infinity b => Bool.eqb a b
  | S754_nan, S754_nan => true
  | S754_finite a m e, S754_finite b m' e' =>
      Bool.eqb a b && (m =? m')%positive && (e =? e')
  | _, _ => false
  end.

Definition decimal (n : N) : string := NilZero.string_of_uint (N.to_uint n).

(** The ratio [p / q] times [10^j]. *)
Definition scale10 (p q : Z) (j : Z) : Z * Z :=
  if 0 <=? j then (p * 10 ^ j, q) else (p, q * 10 ^ (- j)).

(** The least [n], from [n] on, with [p / q < 10^n]. *)
Fixpoint magnitude (fuel : nat) (n : Z) (p q : Z) : Z :=
  match fuel with
  | O => n
  | S fuel' =>
      let '(p', q') := scale10 p q (- n) in
      if p' <? q' then n else magnitude fuel' (n + 1) p q
  end.

(** Step 5: the shortest digit string [s] of [k] digits, from [k] on,
    with [s * 10^(n - k)] rounding to [x], and of those the one closest
    to [x] (the even one on a tie).  The result is [(k, s)]; [s] is
    [10^k] where the digits are those of [10^n]. *)
Fixpoint shortest (fuel : nat) (k : Z) (x : number) (p q : Z) (n : Z) : Z * Z :=
  let '(p', q') := scale10 p q (k - n) in
  let lo := p' / q' in
  let hi := lo + 1 in
  let ok v := number_eqb (of_decimal false (Z.to_N v) (n - k)) x in
  match fuel with
  | O => (k, lo)
  | S fuel' =>
      if ok lo && ok hi then
        match (p' - lo * q') ?= (hi * q' - p') with
        | Lt => (k, lo)
        | Gt => (k, hi)
        | Eq => (k, if Z.even lo then lo else hi)
        end
      else if ok lo then (k, lo)
      else if ok hi then (k, hi)
      else shortest fuel' (k + 1) x p q n
  end.

Fixpoint zeros (n : nat) : string :=
  match n with O => EmptyString | S n' => String "0" (zeros n') end.

Definition take_string (n : nat) (s : string) : string := text (take n (chars s)).
Definition drop_string (n : nat) (s : string) : string := text (drop n (chars s)).

(** Steps 6 to 11: lay out the [k] digits [ds] of a number below [10^n]. *)
Definition layout (n k : Z) (ds : string) : string :=
  if (k <=? n) && (n <=? 21) then ds +:+ zeros (Z.to_nat (n - k))
  else if (0 <? n) && (n <=? 21) then
    take_string (Z.to_nat n) ds +:+ "." +:+ drop_string (Z.to_nat n) ds
  else if (-6 <? n) && (n <=? 0) then "0." +:+ zeros (Z.to_nat (- n)) +:+ ds
  else
    let e := n - 1 in
    let exponent := (if 0 <=? e then "e+" else "e-") +:+ decimal (Z.abs_N e) in
    if k =? 1 then ds +:+ exponent
    else take_string 1 ds +:+ "." +:+ drop_string 1 ds +:+ exponent.

(** Numbers are canonical binary64 values; [canonical] is the identity
    on them. *)
Definition canonical (x : number) : number :=
  match x with
  | S754_finite neg m e => binary_round prec emax neg m e
  | _ => x
  end.

Definition toString (x : number) : string :=
  match canonical x with
  | S754_nan => "NaN"
  | S754_zero _ => "0"
  | S754_infinity neg => if neg then "-Infinity" else "Infinity"
  | S754_finite neg m e =>
      let '(p, q) := if 0 <=? e then (Zpos m * 2 ^ e, 1) else (Zpos m, 2 ^ (- e)) in
      let n := magnitude 700 (-324) p q in
      let '(k, s) := shortest 20 1 (S754_finite false m e) p q n in
      let digits :=
        if s =? 10 ^ k then layout (n + 1) 1 "1"
        else layout n k (decimal (Z.to_N s)) in
      if neg then "-" +:+ digits else digits
  end.

End Number.

Import Number.

(** ** The grammar of numeric strings (ECMA-262, 7.1.4.1) *)

Module Grammar.

(** WhiteSpace: TAB, VT, FF, ZWNBSP and the space separators of Unicode
    (the general category Zs); LineTerminator: LF, CR, LS and PS. *)
Definition WhiteSpace (c : N) : Prop :=
  c ∈ [0x0009; 0x000B; 0x000C; 0xFEFF;
       0x0020; 0x00A0; 0x1680; 0x2000; 0x2001; 0x2002; 0x2003; 0x2004;
       0x2005; 0x2006; 0x2007; 0x2008; 0x2009; 0x200A; 0x202F; 0x205F;
       0x3000]%N.

Definition LineTerminator (c : N) : Prop :=
  c ∈ [0x000A; 0x000D; 0x2028; 0x2029]%N.

Definition StrWhiteSpaceChar (c : N) : Prop :=
  WhiteSpace c \/ LineTerminator c.

Definition DecimalDigit (c : N) : Prop := c ∈ units "0123456789".
Definition BinaryDigit (c : N) : Prop := c ∈ units "01".
Definition OctalDigit (c : N) : Prop := c ∈ units "01234567".
Definition HexDigit (c : N) : Prop := c ∈ units "0123456789abcdefABCDEF".

(** One or more characters of a class. *)
Definition some (class : N -> Prop) (cs : list N) : Prop :=
  cs <> [] /\ Forall class cs.

(** Nothing, or what a nonterminal derives. *)
Definition opt (nonterminal : list N -> Prop) (cs : list N) : Prop :=
  cs = [] \/ nonterminal cs.

Inductive Sign : list N -> Prop :=
| Sign_none : Sign []
| Sign_plus : Sign [code "+"]
| Sign_minus : Sign [code "-"].

Inductive ExponentPart : list N -> Prop :=
| ExponentPart_intro indicator sign ds :
    indicator = code "e" \/ indicator = code "E" ->
    Sign sign -> some DecimalDigit ds ->
    ExponentPart (indicator :: sign ++ ds).

Inductive StrUnsignedDecimalLiteral : list N -> Prop :=
| Unsigned_Infinity : StrUnsignedDecimalLiteral (units "Infinity")
| Unsigned_point ip fp ex :
    some DecimalDigit ip -> opt (some DecimalDigit) fp -> opt ExponentPart ex ->
    StrUnsignedDecimalLiteral (ip ++ code "." :: fp ++ ex)
| Unsigned_fraction fp ex :
    some DecimalDigit fp -> opt ExponentPart ex ->
    StrUnsignedDecimalLiteral (code "." :: fp ++ ex)
| Unsigned_integer ip ex :
    some DecimalDigit ip -> opt ExponentPart ex ->
    StrUnsignedDecimalLiteral (ip ++ ex).

Inductive StrDecimalLiteral : list N -> Prop :=
| StrDecimalLiteral_intro sign body :
    Sign sign -> StrUnsignedDecimalLiteral body ->
    StrDecimalLiteral (sign ++ body).

Inductive NonDecimalIntegerLiteral : list N -> Prop :=
| Binary marker ds :
    marker = code "b" \/ marker = code "B" -> some BinaryDigit ds ->
    NonDecimalIntegerLiteral (code "0" :: marker :: ds)
| Octal marker ds :
    marker = code "o" \/ marker = code "O" -> some OctalDigit ds ->
    NonDecimalIntegerLiteral (code "0" :: marker :: ds)
| Hex marker ds :
    marker = code "x" \/ marker = code "X" -> some HexDigit ds ->
    NonDecimalIntegerLiteral (code "0" :: marker :: ds).

Definition StrNumericLiteral (cs : list N) : Prop :=
  StrDecimalLiteral cs \/ NonDecimalIntegerLiteral cs.

(** A string of white space only: StrWhiteSpace, or nothing. *)
Definition blank (s : string) : Prop := Forall StrWhiteSpaceChar (units s).

(** A string with a numeric literal in it: StrNumericLiteral, with
    white space before and after it or not. *)
Definition numeric (s : string) : Prop :=
  exists before literal after,
    units s = before ++ literal ++ after
    /\ Forall StrWhiteSpaceChar before /\ Forall StrWhiteSpaceChar after
    /\ StrNumericLiteral literal.

End Grammar.

Import Grammar.


(** ** Regular expressions

    The fragment of ECMAScript patterns that [isUrl] is written in:
    characters, sequence, alternation [|], the greedy optional [?] and
    the assertion [^] (no [m] flag: the start of the input only).  The
    matcher is the backtracking matcher of the language, in
    continuation-passing style.  The characters of the patterns are
    ASCII characters: one byte each, of the pattern and of the subject. *)

Module RegExp.

Inductive pattern : Type :=
| Empty
| Char (c : ascii)
| Seq (p q : pattern)
| Alt (p q : pattern)
| Opt (p : pattern)
| Bol.

(** The pattern for a literal run of characters. *)
Fixpoint lit (cs : list ascii) : pattern :=
  match cs with
  | [] => Empty
  | c :: cs' => Seq (Char c) (lit cs')
  end.

(** [matches p pos input k]: [p] matches at index [pos], where [input]
    is what is left of the subject from [pos] on, and the continuation
    [k] accepts the rest. *)
Fixpoint matches (p : pattern) (pos : nat) (input : list ascii)
    (k : nat -> list ascii -> bool) : bool :=
  match p with
  | Empty => k pos input
  | Char c =>
      match input with
      | x :: rest => if Ascii.eqb x c then k (S pos) rest else false
      | [] => false
      end
  | Seq p q => matches p pos input (fun pos' input' => matches q pos' input' k)
  | Alt p q => matches p pos input k || matches q pos input k
  | Opt p => matches p pos input k || k pos input
  | Bol => Nat.eqb pos 0 && k pos input
  end.

(** RegExpBuiltinExec without the [g] and [y] flags: the match is
    tried at every index from [pos] to the end of the input. *)
Fixpoint search (p : pattern) (pos : nat) (input : list ascii) : bool :=
  matches p pos input (fun _ _ => true)
  || match input with
     | _ :: rest => search p (S pos) rest
     | [] => false
     end.

(** [RegExp.prototype.test] *)
Definition test (p : pattern) (s : string) : bool := search p 0 (chars s).

(** [lang p pos a]: the pattern [p] can consume exactly [a] when the
    match starts at index [pos]. *)
Inductive lang : pattern -> nat -> list ascii -> Prop :=
| lang_Empty pos : lang Empty pos []
| lang_Char c pos : lang (Char c) pos [c]
| lang_Seq p q pos a b :
    lang p pos a -> lang q (pos + length a) b -> lang (Seq p q) pos (a ++ b)
| lang_Alt_l p q pos a : lang p pos a -> lang (Alt p q) pos a
| lang_Alt_r p q pos a : lang q pos a -> lang (Alt p q) pos a
| lang_Opt_some p pos a : lang p pos a -> lang (Opt p) pos a
| lang_Opt_none p pos : lang (Opt p) pos []
| lang_Bol : lang Bol 0 [].

End RegExp.

(** ** Values and objects *)

(** [config.browser.defaultViewport] *)
Record Viewport : Type := {
  width : number;
  height : number;
  deviceScaleFactor : number;
}.

Record BrowserConfig : Type := {
  defaultViewport : Viewport;
  proxyServer : option string;
}.

Record Config : Type := {
  browser : BrowserConfig;
}.

Definition defaultConfig : Config :=
  {| browser :=
       {| defaultViewport :=
            {| width := of_Z 1280; height := of_Z 800; deviceScaleFactor := of_Z 2 |};
          proxyServer := None |} |}.

(** The object literal that [makeOptions] stores in [options.launchOptions]. *)
Module Launch.
Record options : Type := {
  args : list string;
  executablePath : string;
  defaultViewport : Viewport;
}.
End Launch.

(** The values an options object holds: what the [Options] interface
    allows, and the launch options that [makeOptions] adds. *)
Inductive value : Type :=
| VUndefined
| VBoolean (b : bool)
| VNumber (n : number)
| VString (s : string)
| VLaunchOptions (l : Launch.options).

(** The options object: property names to values.  A property that is
    absent reads as [undefined]. *)
Abbreviation Options := (gmap string value).

Definition get (o : Options) (key : string) : value :=
  default VUndefined (o !! key).

Definition ToBoolean (v : value) : bool :=
  match v with
  | VUndefined => false
  | VBoolean b => b
  | VNumber n => Number.to_boolean n
  | VString s => negb (bool_decide (s = EmptyString))
  | VLaunchOptions _ => true
  end.

(** ToString, as a template literal applies it to a substitution. *)
Definition ToString (v : value) : string :=
  match v with
  | VUndefined => "undefined"
  | VBoolean b => if b then "true" else "false"
  | VNumber n => Number.toString n
  | VString s => s
  | VLaunchOptions _ => "[object Object]"
  end.

(** An optional string property of the configuration, read. *)
Definition optional (s : option string) : value :=
  match s with
  | Some t => VString t
  | None => VUndefined
  end.

(** [v !== s] for a string [s] *)
Definition strict_not_equal_string (v : value) (s : string) : bool :=
  match v with
  | VString t => negb (bool_decide (t = s))
  | _ => true
  end.

(** ToNumber, the unary [+].  An object converts through its default
    string form, which is no numeric literal. *)
Definition ToNumber (v : value) : number :=
  match v with
  | VUndefined => NaN
  | VBoolean b => if b then of_Z 1 else of_Z 0
  | VNumber n => n
  | VString s => StringToNumber s
  | VLaunchOptions _ => NaN
  end.

(** [String.prototype.split] with a one-character separator. *)
Fixpoint split_chars (sep : ascii) (cs : list ascii) : list (list ascii) :=
  match cs with
  | [] => [[]]
  | c :: rest =>
      if Ascii.eqb c sep then [] :: split_chars sep rest
      else
        match split_chars sep rest with
        | seg :: segs => (c :: seg) :: segs
        | [] => [[c]]
        end
  end.

Definition split (sep : ascii) (s : string) : list string :=
  map text (split_chars sep (chars s)).

(** The same on code units. *)
Fixpoint split_units (sep : N) (us : list N) : list (list N) :=
  match us with
  | [] => [[]]
  | u :: rest =>
      if N.eqb u sep then [] :: split_units sep rest
      else
        match split_units sep rest with
        | seg :: segs => (u :: seg) :: segs
        | [] => [[u]]
        end
  end.

(** An array element read, [a[i]]: [undefined] out of range. *)
Definition element (a : list string) (i : nat) : value :=
  match a !! i with
  | Some s => VString s
  | None => VUndefined
  end.

(** ** Effects

    [makeOptions] and [render] mutate the options object they are given,
    call two collaborators that may throw, and log.  A computation takes
    the state of the options object and the trace of calls so far, and
    gives an outcome with the state it leaves behind: what was written
    before a [throw] stays written. *)

(** A thrown [Error] object. *)
Record JsError : Type := {
  name : string;
  message : string;
}.

(** [new Error(message)] *)
Definition Error (message : string) : JsError :=
  {| name := "Error"; message := message |}.

Definition TypeError (message : string) : JsError :=
  {| name := "TypeError"; message := message |}.

Inductive outcome (A : Type) : Type :=
| Returned (a : A)
| Threw (e : JsError).
Arguments Returned {A} a.
Arguments Threw {A} e.

Definition Buffer : Type := list Byte.byte.

(** The collaborators: [findChrome] of chrome-finder, which returns the
    path of a browser executable or throws, and [captureWebsite.buffer],
    which returns the image or throws. *)
Record World : Type := {
  findChrome : outcome string;
  captureWebsite_buffer : string -> Options -> outcome Buffer;
}.

Inductive event : Type :=
| FindChrome
| LoggerDebugOptions (options : Options)
| LoggerDebugError (error : JsError)
| CaptureBuffer (input : string) (options : Options).

Record state : Type := {
  object : Options;
  trace : list event;
}.

Definition M (A : Type) : Type := state -> outcome A * state.

Definition ret {A} (a : A) : M A := fun st => (Returned a, st).

Definition bind {A B} (m : M A) (f : A -> M B) : M B :=
  fun st =>
    match m st with
    | (Returned a, st') => f a st'
    | (Threw e, st') => (Threw e, st')
    end.

Definition throw {A} (e : JsError) : M A := fun st => (Threw e, st).

(** [try { m } catch (error) { handler error }] *)
Definition try_catch {A} (m : M A) (handler : JsError -> M A) : M A :=
  fun st =>
    match m st with
    | (Returned a, st') => (Returned a, st')
    | (Threw e, st') => handler e st'
    end.

Declare Scope js_scope.
Delimit Scope js_scope with js.
Bind Scope js_scope with M.
Notation "x <- m ;; k" := (bind m (fun x => k))
  (at level 100, m at level 99, k at level 200, right associativity) : js_scope.
Notation "m ;; k" := (bind m (fun _ => k))
  (at level 100, k at level 200, right associativity) : js_scope.
Local Open Scope js_scope.

(** [options.key] *)
Definition read (key : string) : M value :=
  fun st => (Returned (get (object st) key), st).

(** [options.key = v] *)
Definition assign (key : string) (v : value) : M unit :=
  fun st => (Returned tt, {| object := <[key := v]> (object st); trace := trace st |}).

(** The options object itself, as an argument of a call. *)
Definition options : M Options := fun st => (Returned (object st), st).

Definition emit (ev : event) : M unit :=
  fun st => (Returned tt, {| object := object st; trace := trace st ++ [ev] |}).

(** The outcome of a call to a collaborator. *)
Definition call {A} (r : outcome A) : M A := fun st => (r, st).

(** [if (b) { m }] *)
Definition when (b : bool) (m : M unit) : M unit := if b then m else ret tt.

(** ** The program *)

(** [const isUrl = (s: string) => /^(https?|file):\/\/|^data:/.test(s)] *)
Definition isUrl_pattern : RegExp.pattern :=
  let lit s := RegExp.lit (chars s) in
  RegExp.Alt
    (RegExp.Seq RegExp.Bol
       (RegExp.Seq
          (RegExp.Alt (RegExp.Seq (lit "http") (RegExp.Opt (RegExp.Char "s")))
                      (lit "file"))
          (lit "://")))
    (RegExp.Seq RegExp.Bol (lit "data:")).

Definition isUrl (s : string) : bool := RegExp.test isUrl_pattern s.

Definition makeOptions (w : World) (config : Config) : M unit :=
  viewport <- read "viewport" ;;
  when (negb (ToBoolean viewport))
    (assign "viewport"
       (VString (ToString (VNumber (width (defaultViewport (browser config))))
                 +:+ "x"
                 +:+ ToString (VNumber (height (defaultViewport (browser config))))))) ;;

  scaleFactor <- read "scaleFactor" ;;
  when (negb (ToBoolean scaleFactor))
    (assign "scaleFactor"
       (VNumber (deviceScaleFactor (defaultViewport (browser config))))) ;;

  type <- read "type" ;;
  when (negb (ToBoolean type)) (assign "type" (VString "png")) ;;

  quality <- read "quality" ;;
  type <- read "type" ;;
  when (negb (ToBoolean quality) && strict_not_equal_string type "png")
    (assign "quality" (VNumber (of_Z 1))) ;;

  timeout <- read "timeout" ;;
  when (negb (ToBoolean timeout)) (assign "timeout" (VNumber (of_Z 60))) ;;

  delay <- read "delay" ;;
  when (negb (ToBoolean delay)) (assign "delay" (VNumber (of_Z 0))) ;;

  disableAnimations <- read "disableAnimations" ;;
  when (negb (ToBoolean disableAnimations))
    (assign "disableAnimations" (VBoolean false)) ;;

  emit FindChrome ;;
  executablePath <- call (findChrome w) ;;
  assign "launchOptions"
    (VLaunchOptions
       {| Launch.args := [];
          Launch.executablePath := executablePath;
          Launch.defaultViewport := defaultViewport (browser config) |}) ;;

  when (ToBoolean (optional (proxyServer (browser config))))
    (launchOptions <- read "launchOptions" ;;
     match launchOptions with
     | VLaunchOptions l =>
         assign "launchOptions"
           (VLaunchOptions
              {| Launch.args :=
                   Launch.args l
                   ++ ["--proxy-server="
                       +:+ ToString (optional (proxyServer (browser config)))];
                 Launch.executablePath := Launch.executablePath l;
                 Launch.defaultViewport := Launch.defaultViewport l |})
     | _ => throw (TypeError "Cannot read properties of undefined (reading 'args')")
     end) ;;

  viewport <- read "viewport" ;;
  when (ToBoolean viewport)
    (match viewport with
     | VString s =>
         let viewport := split "x" s in
         let width := ToNumber (element viewport 0) in
         let height := ToNumber (element viewport 1) in
         assign "width" (VNumber width) ;;
         assign "height" (VNumber height)
     | _ => throw (TypeError "options.viewport.split is not a function")
     end).

Definition render (w : World) (urlOrContent : string) (config : option Config)
    : M Buffer :=
  let config := default defaultConfig config in
  makeOptions w config ;;
  when (negb (isUrl urlOrContent)) (assign "inputType" (VString "html")) ;;
  o <- options ;;
  emit (LoggerDebugOptions o) ;;
  try_catch
    (o <- options ;;
     emit (CaptureBuffer urlOrContent o) ;;
     image <- call (captureWebsite_buffer w urlOrContent o) ;;
     ret image)
    (fun error =>
       emit (LoggerDebugError error) ;;
       throw (Error "capture website failed.")).

(** ** The effect of [makeOptions], step by step *)

(** [if (!options.key) { options.key = d }] *)
Definition default_prop (key : string) (d : value) (o : Options) : Options :=
  if ToBoolean (get o key) then o else <[key := d]> o.

(** [if (!options.quality && options.type !== "png") { options.quality = 1 }] *)
Definition default_quality (o : Options) : Options :=
  if negb (ToBoolean (get o "quality")) && strict_not_equal_string (get o "type") "png"
  then <["quality" := VNumber (of_Z 1)]> o else o.

Definition default_viewport (config : Config) : string :=
  ToString (VNumber (width (defaultViewport (browser config))))
  +:+ "x" +:+ ToString (VNumber (height (defaultViewport (browser config)))).

(** Lines 87 to 113: the seven defaulting statements. *)
Definition with_defaults (config : Config) (o : Options) : Options :=
  default_prop "disableAnimations" (VBoolean false)
    (default_prop "delay" (VNumber (of_Z 0))
       (default_prop "timeout" (VNumber (of_Z 60))
          (default_quality
             (default_prop "type" (VString "png")
                (default_prop "scaleFactor"
                   (VNumber (deviceScaleFactor (defaultViewport (browser config))))
                   (default_prop "viewport" (VString (default_viewport config)) o)))))).

(** Lines 115 to 125: the launch options, with the proxy argument. *)
Definition proxy_args (config : Config) : list string :=
  if ToBoolean (optional (proxyServer (browser config)))
  then ["--proxy-server=" +:+ ToString (optional (proxyServer (browser config)))]
  else [].

Definition launch_options (config : Config) (path : string) : Launch.options :=
  {| Launch.args := proxy_args config;
     Launch.executablePath := path;
     Launch.defaultViewport := defaultViewport (browser config) |}.

(** Lines 127 to 133: the width and height of a viewport string. *)
Definition with_size (s : string) (o : Options) : Options :=
  <["height" := VNumber (ToNumber (element (split "x" s) 1))]>
    (<["width" := VNumber (ToNumber (element (split "x" s) 0))]> o).

Definition size_step (v : value) (o : Options) : outcome unit * Options :=
  if ToBoolean v then
    match v with
    | VString s => (Returned tt, with_size s o)
    | _ => (Threw (TypeError "options.viewport.split is not a function"), o)
    end
  else (Returned tt, o).

(** ** Vocabulary of the properties *)

(** The properties that [makeOptions] assigns. *)
Definition assigned_properties : list string :=
  ["viewport"; "scaleFactor"; "type"; "quality"; "timeout"; "delay";
   "disableAnimations"; "launchOptions"; "width"; "height"].

(** The other properties of the [Options] interface. *)
Definition passed_through_properties : list string :=
  ["fullPage"; "darkMode"; "waitForElement"; "element"; "hideElements";
   "removeElements"; "clickElement"; "scrollToElement"; "noJavascript";
   "script"; "style"; "header"; "userAgent"; "cookie"; "authentication";
   "clip"; "inset"].

(** Whether an event is a call of the capture engine. *)
Definition is_capture (ev : event) : bool :=
  match ev with
  | CaptureBuffer _ _ => true
  | _ => false
  end.

(** ** Worlds and options to run the program on *)

(** A world in which a browser is found and the engine gives an image. *)
Definition chromium : World :=
  {| findChrome := Returned "/usr/bin/chromium";
     captureWebsite_buffer := fun _ _ => Returned [] |}.

(** A world in which another browser is found. *)
Definition google_chrome : World :=
  {| findChrome := Returned "/opt/google/chrome/chrome";
     captureWebsite_buffer := fun _ _ => Returned [] |}.

(** A world in which no browser is found. *)
Definition no_browser : World :=
  {| findChrome := Threw (Error "No Chrome installations found.");
     captureWebsite_buffer := fun _ _ => Returned [] |}.

(** A world in which the engine gives up on the page. *)
Definition broken_engine : World :=
  {| findChrome := Returned "/usr/bin/chromium";
     captureWebsite_buffer := fun _ _ =>
       Threw {| name := "TimeoutError";
                message := "Navigation timeout of 60000 ms exceeded" |} |}.

(** The default configuration, with a proxy server. *)
Definition proxied : Config :=
  {| browser :=
       {| defaultViewport := defaultViewport (browser defaultConfig);
          proxyServer := Some "http://127.0.0.1:7890" |} |}.

(** A call with the options [o], nothing having happened before. *)
Definition fresh (o : Options) : state := {| object := o; trace := [] |}.

(** The segments of the viewport and the properties they are stored in. *)
Definition size_properties : list (nat * string) := [(0%nat, "width"); (1%nat, "height")].

(** ** The command

    The action of the [capture-website] command, lines 261 to 277.  Its
    scheme test, [/^(\w+):\/\//], has a character class under [+], which
    the patterns above do not have. *)

Module RegExpClass.

(** [\w]: the letters, the digits and the underscore. *)
Definition word (c : ascii) : bool :=
  let n := code c in
  ((48 <=? n) && (n <=? 57) || (65 <=? n) && (n <=? 90)
   || (97 <=? n) && (n <=? 122) || (n =? 95))%N.

Inductive pattern : Type :=
| Plain (p : RegExp.pattern)
| Plus (class : ascii -> bool)
| Seq (p q : pattern).

(** [class+], greedy: one character of the class, then as many more as
    there are, giving them back one at a time when what follows fails. *)
Fixpoint plus (class : ascii -> bool) (pos : nat) (input : list ascii)
    (k : nat -> list ascii -> bool) : bool :=
  match input with
  | x :: rest =>
      if class x then plus class (S pos) rest k || k (S pos) rest else false
  | [] => false
  end.

Fixpoint matches (p : pattern) (pos : nat) (input : list ascii)
    (k : nat -> list ascii -> bool) : bool :=
  match p with
  | Plain p => RegExp.matches p pos input k
  | Plus class => plus class pos input k
  | Seq p q => matches p pos input (fun pos' input' => matches q pos' input' k)
  end.

Fixpoint search (p : pattern) (pos : nat) (input : list ascii) : bool :=
  matches p pos input (fun _ _ => true)
  || match input with
     | _ :: rest => search p (S pos) rest
     | [] => false
     end.

(** [RegExp.prototype.exec], as far as its result is looked at: whether
    it is a match, which is truthy, and not [null]. *)
Definition exec (p : pattern) (s : string) : bool := search p 0 (chars s).

End RegExpClass.

(** [/^(\w+):\/\//] *)
Definition scheme_pattern : RegExpClass.pattern :=
  RegExpClass.Seq (RegExpClass.Plain RegExp.Bol)
    (RegExpClass.Seq (RegExpClass.Plus RegExpClass.word)
       (RegExpClass.Plain (RegExp.lit (chars "://")))).

(** What the action returns: a text, or the image as a message segment,
    [segment.image(image)]. *)
Inductive reply : Type :=
| Text (s : string)
| Image (image : Buffer).

(** The action, with the [options] of the command as the options object
    and the [config] of the plugin.  A missing argument is [undefined]. *)
Definition action (w : World) (config : Config) (url : option string) : M reply :=
  if negb (ToBoolean (optional url)) then ret (Text "Please enter URL.")
  else
    let url := ToString (optional url) in
    let scheme := RegExpClass.exec scheme_pattern url in
    let url := if negb scheme then "https://" +:+ url else url in
    try_catch
      (image <- render w url (Some config) ;;
       ret (Image image))
      (fun error => ret (Text (message error))).

(** Lines 266 to 269: the URL with a scheme. *)
Definition with_scheme (url : string) : string :=
  if RegExpClass.exec scheme_pattern url then url else "https://" +:+ url.

(** A character that [\w] stands for. *)
Definition WordCharacter (c : ascii) : Prop :=
  c ∈ chars "abcdefghijklmnopqrstuvwxyzABCDEFGHIJKLMNOPQRSTUVWXYZ0123456789_".

(** [s] starts with a scheme: word characters, one at least, and "://". *)
Definition has_scheme (s : string) : Prop :=
  exists scheme rest,
    s = text scheme +:+ "://" +:+ rest
    /\ scheme <> [] /\ Forall WordCharacter scheme.

(** The defaulted properties that are defaulted on falsiness alone, with
    their defaults. *)
Definition defaults (config : Config) : list (string * value) :=
  [("viewport",
    VString (ToString (VNumber (width (defaultViewport (browser config))))
             +:+ "x"
             +:+ ToString (VNumber (height (defaultViewport (browser config))))));
   ("scaleFactor", VNumber (deviceScaleFactor (defaultViewport (browser config))));
   ("type", VString "png");
   ("timeout", VNumber (of_Z 60));
   ("delay", VNumber (of_Z 0));
   ("disableAnimations", VBoolean false)].

(** * Properties *)

Local Close Scope Z_scope.

(** Membership in a list that is written out. *)
Ltac in_list :=
  repeat first [apply list_elem_of_here | apply list_elem_of_further].

(** Arithmetic with the quotients and remainders of code units. *)
Ltac nlia := zify; Z.to_euclidean_division_equations; lia.

(** A test on a code unit, by the cases of its comparisons. *)
Ltac by_cases :=
  repeat match goal with
  | |- context [N.leb ?a ?b] => destruct (N.leb_spec a b); cbn [andb orb]
  | |- context [N.ltb ?a ?b] => destruct (N.ltb_spec a b); cbn [andb orb]
  | |- context [N.eqb ?a ?b] => destruct (N.eqb_spec a b); cbn [andb orb]
  end.

(** The code units of a string that is written out. *)
Ltac literal s :=
  let us := eval vm_compute in (units s) in change (units s) with us.

(** A code unit in a range is one of a list that is written out. *)
Ltac one_of := rewrite ?elem_of_cons, ?elem_of_nil; lia.

Arguments Number.of_Z : simpl never.
Arguments Number.toString : simpl never.
Arguments Number.StringToNumber : simpl never.
Arguments ToNumber : simpl never.
Arguments split : simpl never.
Arguments element : simpl never.
Arguments isUrl : simpl never.
Arguments default_viewport : simpl never.
Arguments with_defaults : simpl never.

(** ** Reading properties *)

Lemma get_insert_eq (o : Options) key v : get (<[key := v]> o) key = v.
Proof. unfold get. by rewrite lookup_insert_eq. Qed.

Lemma get_insert_ne (o : Options) key key' v :
  key <> key' -> get (<[key := v]> o) key' = get o key'.
Proof. intros H. unfold get. by rewrite lookup_insert_ne. Qed.

Lemma lookup_default_prop_ne (o : Options) key key' d :
  key <> key' -> default_prop key d o !! key' = o !! key'.
Proof.
  intros H. unfold default_prop.
  destruct (ToBoolean (get o key)); [done | by rewrite lookup_insert_ne].
Qed.

Lemma get_default_prop_ne (o : Options) key key' d :
  key <> key' -> get (default_prop key d o) key' = get o key'.
Proof. intros H. unfold get. by rewrite lookup_default_prop_ne. Qed.

Lemma get_default_prop_eq (o : Options) key d :
  get (default_prop key d o) key
  = if ToBoolean (get o key) then get o key else d.
Proof.
  unfold default_prop.
  destruct (ToBoolean (get o key)); [done | apply get_insert_eq].
Qed.

Lemma lookup_default_quality_ne (o : Options) key :
  key <> "quality" -> default_quality o !! key = o !! key.
Proof.
  intros H. unfold default_quality.
  destruct (_ && _); [by rewrite lookup_insert_ne | done].
Qed.

Lemma get_default_quality_ne (o : Options) key :
  key <> "quality" -> get (default_quality o) key = get o key.
Proof. intros H. unfold get. by rewrite lookup_default_quality_ne. Qed.

(** ** The monadic code, run *)

Lemma run_default {A} key d (rest : M A) st :
  (v <- read key ;; when (negb (ToBoolean v)) (assign key d) ;; rest) st
  = rest {| object := default_prop key d (object st); trace := trace st |}.
Proof.
  unfold bind, read, when, assign, default_prop, ret. simpl.
  destruct st as [o tr]. simpl. by destruct (ToBoolean (get o key)).
Qed.

Lemma run_default_quality {A} (rest : M A) st :
  (quality <- read "quality" ;;
   type <- read "type" ;;
   when (negb (ToBoolean quality) && strict_not_equal_string type "png")
     (assign "quality" (VNumber (of_Z 1))) ;;
   rest) st
  = rest {| object := default_quality (object st); trace := trace st |}.
Proof.
  unfold bind, read, when, assign, default_quality, ret. simpl.
  destruct st as [o tr]. simpl. by destruct (_ && _).
Qed.

(** [makeOptions] in closed form. *)
Lemma makeOptions_run w config st :
  makeOptions w config st
  = let o := with_defaults config (object st) in
    let tr := trace st ++ [FindChrome] in
    match findChrome w with
    | Threw e => (Threw e, {| object := o; trace := tr |})
    | Returned path =>
        let o' := <["launchOptions" := VLaunchOptions (launch_options config path)]> o in
        let '(r, o'') := size_step (get o "viewport") o' in
        (r, {| object := o''; trace := tr |})
    end.
Proof.
  destruct st as [o0 tr0].
  unfold makeOptions.
  do 3 (rewrite run_default; cbn [object trace]).
  rewrite run_default_quality; cbn [object trace].
  do 3 (rewrite run_default; cbn [object trace]).
  fold (default_viewport config). fold (with_defaults config o0).
  set (o := with_defaults config o0).
  unfold bind, emit, call, assign, when, read, ret, throw. 
  cbn [object trace].
  destruct (findChrome w) as [path | e]; [| done].
  unfold launch_options, proxy_args.
  destruct (ToBoolean (optional (proxyServer (browser config)))).
  - cbn [object trace]. rewrite get_insert_eq. cbn [object trace Launch.args Launch.executablePath Launch.defaultViewport app].
    rewrite insert_insert_eq.
    rewrite get_insert_ne by done.
    unfold size_step, with_size.
    destruct (get o "viewport") as [| b | n | s | l]; cbn [ToBoolean]; try done.
    + by destruct b.
    + by destruct (Number.to_boolean n).
    + by destruct (bool_decide (s = EmptyString)).
  - cbn [object trace]. rewrite get_insert_ne by done.
    unfold size_step, with_size.
    destruct (get o "viewport") as [| b | n | s | l]; cbn [ToBoolean]; try done.
    + by destruct b.
    + by destruct (Number.to_boolean n).
    + by destruct (bool_decide (s = EmptyString)).
Qed.

(** ** Strings as lists of characters *)

Lemma text_chars s : text (chars s) = s.
Proof. apply Stdlib.Strings.String.string_of_list_ascii_of_string. Qed.

Lemma chars_text cs : chars (text cs) = cs.
Proof. apply Stdlib.Strings.String.list_ascii_of_string_of_list_ascii. Qed.

Lemma chars_app s t : chars (s +:+ t) = chars s ++ chars t.
Proof. induction s as [| c s IH]; simpl; [done | by rewrite IH]. Qed.

Lemma text_app a b : text (a ++ b) = text a +:+ text b.
Proof. induction a as [| c a IH]; simpl; [done | by rewrite IH]. Qed.

Lemma starts_with_chars prefix s :
  starts_with prefix s <-> exists rest, chars s = chars prefix ++ rest.
Proof.
  split.
  - intros [rest ->]. exists (chars rest). apply chars_app.
  - intros [rest H]. exists (text rest).
    rewrite <- (text_chars s), H, text_app. by rewrite text_chars.
Qed.

(** ** Strings in UTF-8 *)

Section utf8.
Import UTF8.
Local Open Scope N_scope.

Lemma code_byte n : n < 256 -> code (byte n) = n.
Proof. apply Ascii.N_ascii_embedding. Qed.

Lemma decode_cons c0 r0 :
  decode (c0 :: r0) =
      let n0 := code c0 in
      let replaced := replacement :: decode r0 in
      if n0 <? 0x80 then n0 :: decode r0
      else if n0 <? 0xC0 then replaced
      else if n0 <? 0xE0 then
        match r0 with
        | c1 :: r1 =>
            match continuation c1 with
            | Some b1 =>
                let p := (n0 - 0xC0) * 64 + b1 in
                if 0x80 <=? p then p :: decode r1 else replaced
            | None => replaced
            end
        | _ => replaced
        end
      else if n0 <? 0xF0 then
        match r0 with
        | c1 :: c2 :: r2 =>
            match continuation c1, continuation c2 with
            | Some b1, Some b2 =>
                let p := ((n0 - 0xE0) * 64 + b1) * 64 + b2 in
                if 0x800 <=? p then p :: decode r2 else replaced
            | _, _ => replaced
            end
        | _ => replaced
        end
      else if n0 <? 0xF8 then
        match r0 with
        | c1 :: c2 :: c3 :: r3 =>
            match continuation c1, continuation c2, continuation c3 with
            | Some b1, Some b2, Some b3 =>
                let p := (((n0 - 0xF0) * 64 + b1) * 64 + b2) * 64 + b3 in
                if (0x10000 <=? p) && (p <=? 0x10FFFF)
                then surrogates p ++ decode r3 else replaced
            | _, _, _ => replaced
            end
        | _ => replaced
        end
      else replaced.
Proof. reflexivity. Qed.

Lemma ltb_true a b : a < b -> (a <? b) = true.
Proof. apply N.ltb_lt. Qed.

Lemma ltb_false a b : b <= a -> (a <? b) = false.
Proof. apply N.ltb_ge. Qed.

Lemma continuation_byte b : b < 64 -> continuation (byte (0x80 + b)) = Some b.
Proof.
  intros H. unfold continuation. rewrite code_byte by lia.
  rewrite (proj2 (N.leb_le _ _)), ltb_true by lia.
  cbn [andb]. f_equal. lia.
Qed.

Lemma decode_encode_unit u rest :
  u < 0x10000 -> decode (encode_unit u ++ rest) = u :: decode rest.
Proof.
  intros Hu. unfold encode_unit.
  destruct (N.ltb_spec u 0x80) as [H1 | H1].
  { cbn [app]. rewrite decode_cons. cbv zeta. rewrite code_byte by lia.
    by rewrite ltb_true by lia. }
  destruct (N.ltb_spec u 0x800) as [H2 | H2].
  { cbn [app]. rewrite decode_cons. cbv zeta.
    rewrite code_byte by nlia.
    rewrite !ltb_false, ltb_true by nlia.
    rewrite continuation_byte by nlia.
    replace ((192 + u / 64 - 192) * 64 + u mod 64) with u by nlia.
    by rewrite (proj2 (N.leb_le _ _)) by lia. }
  cbn [app]. rewrite decode_cons. cbv zeta.
  rewrite code_byte by nlia.
  rewrite !ltb_false, ltb_true by nlia.
  rewrite !continuation_byte by nlia.
  replace (((224 + u / 4096 - 224) * 64 + u / 64 mod 64) * 64 + u mod 64) with u
    by nlia.
  by rewrite (proj2 (N.leb_le _ _)) by lia.
Qed.

(** Every JavaScript string is the string of code units of a string of
    the model. *)
Lemma units_of_units us :
  Forall (fun u => u < 0x10000) us -> units (of_units us) = us.
Proof.
  unfold units, of_units, chars, text.
  rewrite Stdlib.Strings.String.list_ascii_of_string_of_list_ascii.
  induction 1 as [| u us Hu _ IH]; [done |].
  unfold encode. cbn [map concat]. rewrite decode_encode_unit by done.
  f_equal. exact IH.
Qed.

Lemma continuation_ascii c : code c < 0x80 -> continuation c = None.
Proof.
  intros H. unfold continuation.
  by rewrite (proj2 (N.leb_gt _ _)) by lia.
Qed.

Lemma continuation_Some c b : continuation c = Some b -> 0x80 <= code c.
Proof.
  unfold continuation. destruct (N.leb_spec 128 (code c)); [done | discriminate].
Qed.

(** An ASCII byte is a code unit by itself, wherever it is. *)
Lemma decode_app_ascii c b : code c < 0x80 ->
  forall a, decode (a ++ c :: b) = decode a ++ code c :: decode b.
Proof.
  intros Hc a.
  induction a as [a IH] using (induction_ltof1 _ (@length ascii)).
  unfold ltof in IH.
  assert (Hend : decode (c :: b) = code c :: decode b).
  { rewrite decode_cons. cbv zeta. by rewrite ltb_true. }
  destruct a as [| c0 r0]; [exact Hend |].
  cbn [app]. rewrite (decode_cons c0 (r0 ++ c :: b)), (decode_cons c0 r0). cbv zeta.
  pose proof (IH r0 ltac:(cbn; lia)) as IH0. rewrite IH0.
  pose proof (continuation_ascii c Hc) as Hk.
  destruct (code c0 <? 128); [done |].
  destruct (code c0 <? 192); [done |].
  destruct (code c0 <? 224).
  { destruct r0 as [| c1 r1]; cbn [app]; [by rewrite Hk |].
    destruct (continuation c1) as [b1 |]; [| done].
    destruct (128 <=? _); [| done].
    by rewrite (IH r1) by (cbn; lia). }
  destruct (code c0 <? 240).
  { destruct r0 as [| c1 [| c2 r2]]; cbn [app].
    - rewrite Hk. by destruct b.
    - rewrite Hk. by destruct (continuation c1).
    - destruct (continuation c1) as [b1 |]; [| done].
      destruct (continuation c2) as [b2 |]; [| done].
      destruct (2048 <=? _); [| done].
      by rewrite (IH r2) by (cbn; lia). }
  destruct (code c0 <? 248); [| done].
  destruct r0 as [| c1 [| c2 [| c3 r3]]]; cbn [app].
  - rewrite Hk. by destruct b as [| ? [| ? ?]].
  - rewrite Hk. destruct b; [done |]. by destruct (continuation c1).
  - rewrite Hk. destruct (continuation c1); [| done]. by destruct (continuation c2).
  - destruct (continuation c1) as [b1 |]; [| done].
    destruct (continuation c2) as [b2 |]; [| done].
    destruct (continuation c3) as [b3 |]; [| done].
    destruct (_ && _); [| done].
    rewrite (IH r3) by (cbn; lia). by rewrite <- app_assoc.
Qed.

(** An ASCII code unit is an ASCII byte, of any string. *)
Lemma decode_elem_ascii u cs :
  u < 0x80 -> u ∈ decode cs -> exists c, c ∈ cs /\ code c = u.
Proof.
  intros Hu.
  induction cs as [cs IH] using (induction_ltof1 _ (@length ascii)).
  unfold ltof in IH.
  destruct cs as [| c0 r0]; [by intros ?%elem_of_nil |].
  assert (Hrest : forall r, (length r <= length r0)%nat -> u ∈ decode r ->
                            (forall c, c ∈ r -> c ∈ r0) ->
                            exists c, c ∈ c0 :: r0 /\ code c = u).
  { intros r Hl Hin Hsub. destruct (IH r ltac:(cbn; lia) Hin) as (c & Hc & <-).
    exists c. split; [apply list_elem_of_further, Hsub, Hc | done]. }
  assert (Hrep : u ∈ replacement :: decode r0 -> exists c, c ∈ c0 :: r0 /\ code c = u).
  { intros [-> | Hin]%elem_of_cons; [unfold replacement in Hu; lia |].
    by apply (Hrest r0). }
  rewrite decode_cons. cbv zeta.
  destruct (N.ltb_spec (code c0) 0x80) as [H0 | H0].
  { intros [-> | Hin]%elem_of_cons; [exists c0; split; [apply list_elem_of_here | done] |].
    by apply (Hrest r0). }
  destruct (code c0 <? 192); [exact Hrep |].
  destruct (code c0 <? 224).
  { destruct r0 as [| c1 r1]; [exact Hrep |].
    destruct (continuation c1) as [b1 |] eqn:E1; [| exact Hrep].
    destruct (N.leb_spec 128 ((code c0 - 192) * 64 + b1)) as [Hp | Hp]; [| exact Hrep].
    intros [-> | Hin]%elem_of_cons; [lia |].
    apply (Hrest r1); [cbn; lia | done |]. intros c Hc. by apply list_elem_of_further. }
  destruct (code c0 <? 240).
  { destruct r0 as [| c1 [| c2 r2]]; [exact Hrep | exact Hrep |].
    destruct (continuation c1) as [b1 |] eqn:E1; [| exact Hrep].
    destruct (continuation c2) as [b2 |] eqn:E2; [| exact Hrep].
    destruct (N.leb_spec 2048 (((code c0 - 224) * 64 + b1) * 64 + b2)) as [Hp | Hp];
      [| exact Hrep].
    intros [-> | Hin]%elem_of_cons; [lia |].
    apply (Hrest r2); [cbn; lia | done |].
    intros c Hc. by do 2 apply list_elem_of_further. }
  destruct (code c0 <? 248); [| exact Hrep].
  destruct r0 as [| c1 [| c2 [| c3 r3]]]; [exact Hrep | exact Hrep | exact Hrep |].
  destruct (continuation c1) as [b1 |] eqn:E1; [| exact Hrep].
  destruct (continuation c2) as [b2 |] eqn:E2; [| exact Hrep].
  destruct (continuation c3) as [b3 |] eqn:E3; [| exact Hrep].
  destruct (_ && _); [| exact Hrep].
  unfold surrogates. cbn [app].
  intros [-> | [-> | Hin]%elem_of_cons]%elem_of_cons; [nlia | nlia |].
  apply (Hrest r3); [cbn; lia | done |].
  intros c Hc. by do 3 apply list_elem_of_further.
Qed.

(** A string of ASCII characters has them as its code units. *)
Lemma decode_ascii cs :
  Forall (fun c => code c < 0x80) cs -> decode cs = map code cs.
Proof.
  induction 1 as [| c cs Hc _ IH]; [done |].
  rewrite decode_cons. cbv zeta. rewrite ltb_true by done. cbn [map]. by rewrite IH.
Qed.

End utf8.

(** ** The matcher against the language of a pattern *)

Section matcher.

Import RegExp.

Lemma matches_lang p : forall pos input k,
  matches p pos input k = true
  <-> exists a rest,
        input = a ++ rest /\ lang p pos a /\ k (pos + length a) rest = true.
Proof.
  induction p as [| c | p IHp q IHq | p IHp q IHq | p IHp |]; intros pos input k; simpl.
  - split.
    + intros H. exists [], input. rewrite Nat.add_0_r. by repeat split; [constructor |].
    + intros (a & rest & -> & Hl & Hk). inversion Hl; subst.
      by rewrite Nat.add_0_r in Hk.
  - split.
    + destruct input as [| x rest]; [done |].
      destruct (Ascii.eqb_spec x c) as [-> | Hne]; [| done].
      intros Hk. exists [c], rest. rewrite Nat.add_1_r. by repeat split; [constructor |].
    + intros (a & rest & -> & Hl & Hk). inversion Hl; subst. simpl.
      rewrite Ascii.eqb_refl. by rewrite Nat.add_1_r in Hk.
  - rewrite IHp. split.
    + intros (a & rest & -> & Hl & Hk). apply IHq in Hk as (b & rest' & -> & Hl' & Hk).
      exists (a ++ b), rest'. rewrite <- app_assoc, length_app, Nat.add_assoc.
      by repeat split; [constructor |].
    + intros (ab & rest & -> & Hl & Hk). inversion Hl as [| | ? ? ? a b Ha Hb | | | | |]; subst.
      exists a, (b ++ rest). rewrite <- app_assoc. repeat split; [done |].
      apply IHq. exists b, rest. rewrite length_app, Nat.add_assoc in Hk. by repeat split.
  - rewrite orb_true_iff, IHp, IHq. split.
    + intros [(a & rest & -> & Hl & Hk) | (a & rest & -> & Hl & Hk)];
        exists a, rest; repeat split; try done; by constructor.
    + intros (a & rest & -> & Hl & Hk). inversion Hl; subst; [left | right];
        by exists a, rest.
  - rewrite orb_true_iff, IHp. split.
    + intros [(a & rest & -> & Hl & Hk) | Hk].
      * exists a, rest. repeat split; try done. by constructor.
      * exists [], input. rewrite Nat.add_0_r. repeat split; try done. apply lang_Opt_none.
    + intros (a & rest & -> & Hl & Hk). inversion Hl; subst.
      * left. by exists a, rest.
      * right. by rewrite Nat.add_0_r in Hk.
  - rewrite andb_true_iff, Nat.eqb_eq. split.
    + intros [-> Hk]. exists [], input. repeat split; try done. constructor.
    + intros (a & rest & -> & Hl & Hk). inversion Hl; subst. by split.
Qed.

Lemma search_lang p : forall input pos,
  search p pos input = true
  <-> exists skipped a rest,
        input = skipped ++ a ++ rest /\ lang p (pos + length skipped) a.
Proof.
  induction input as [| x input IH]; intros pos; simpl;
    rewrite orb_true_iff, matches_lang.
  - split.
    + intros [(a & rest & H & Hl & _) | ?]; [| done].
      exists [], a, rest. by rewrite Nat.add_0_r.
    + intros (skipped & a & rest & H & Hl). left.
      destruct skipped; [| done]. rewrite Nat.add_0_r in Hl. by exists a, rest.
  - rewrite IH. split.
    + intros [(a & rest & H & Hl & _) | (skipped & a & rest & -> & Hl)].
      * exists [], a, rest. by rewrite Nat.add_0_r.
      * exists (x :: skipped), a, rest. simpl. by rewrite Nat.add_succ_r.
    + intros (skipped & a & rest & H & Hl). destruct skipped as [| y skipped].
      * left. rewrite Nat.add_0_r in Hl. by exists a, rest.
      * right. simpl in H. injection H as -> ->. exists skipped, a, rest.
        simpl in Hl. by rewrite Nat.add_succ_r in Hl.
Qed.

Lemma lang_lit cs pos a : lang (lit cs) pos a <-> a = cs.
Proof.
  revert pos a. induction cs as [| c cs IH]; intros pos a; simpl.
  - split; [by inversion 1 | intros ->; constructor].
  - split.
    + inversion 1 as [| | ? ? ? a1 a2 H1 H2 | | | | |]; subst.
      inversion H1; subst. apply IH in H2 as ->. done.
    + intros ->. apply (lang_Seq (Char c) (lit cs) pos [c] cs); [constructor | by apply IH].
Qed.


End matcher.

(** The language of the pattern of [isUrl]: the four scheme prefixes,
    at index 0 only. *)
Lemma isUrl_pattern_lang pos a :
  RegExp.lang isUrl_pattern pos a
  <-> pos = 0%nat
      /\ (a = chars "http://" \/ a = chars "https://"
          \/ a = chars "file://" \/ a = chars "data:").
Proof.
  unfold isUrl_pattern. split.
  - intros H.
    repeat match goal with
    | H : RegExp.lang (RegExp.Alt _ _) _ _ |- _ => inversion H; clear H; subst
    | H : RegExp.lang (RegExp.Seq _ _) _ _ |- _ => inversion H; clear H; subst
    | H : RegExp.lang (RegExp.Opt _) _ _ |- _ => inversion H; clear H; subst
    | H : RegExp.lang (RegExp.Char _) _ _ |- _ => inversion H; clear H; subst
    | H : RegExp.lang RegExp.Bol _ _ |- _ => inversion H; clear H; subst
    | H : RegExp.lang RegExp.Empty _ _ |- _ => inversion H; clear H; subst
    | H : RegExp.lang (RegExp.lit _) _ _ |- _ => apply lang_lit in H; subst
    end; split; try done; simpl; auto.
  - intros [-> H].
    assert (Hlit : forall s n, RegExp.lang (RegExp.lit (chars s)) n (chars s))
      by (intros; by apply lang_lit).
    destruct H as [-> | [-> | [-> | ->]]].
    + apply RegExp.lang_Alt_l.
      apply (RegExp.lang_Seq _ _ 0 [] (chars "http://")); [constructor |].
      apply (RegExp.lang_Seq _ _ _ (chars "http") (chars "://")); [| apply Hlit].
      apply RegExp.lang_Alt_l.
      apply (RegExp.lang_Seq _ _ _ (chars "http") []); [apply Hlit |].
      apply RegExp.lang_Opt_none.
    + apply RegExp.lang_Alt_l.
      apply (RegExp.lang_Seq _ _ 0 [] (chars "https://")); [constructor |].
      apply (RegExp.lang_Seq _ _ _ (chars "https") (chars "://")); [| apply Hlit].
      apply RegExp.lang_Alt_l.
      apply (RegExp.lang_Seq _ _ _ (chars "http") (chars "s")); [apply Hlit |].
      apply RegExp.lang_Opt_some. constructor.
    + apply RegExp.lang_Alt_l.
      apply (RegExp.lang_Seq _ _ 0 [] (chars "file://")); [constructor |].
      apply (RegExp.lang_Seq _ _ _ (chars "file") (chars "://")); [| apply Hlit].
      apply RegExp.lang_Alt_r. apply Hlit.
    + apply RegExp.lang_Alt_r.
      apply (RegExp.lang_Seq _ _ 0 [] (chars "data:")); [constructor | apply Hlit].
Qed.

(** C3. [isUrl] holds of a subject exactly when it starts with
    [http://], [https://], [file://] or [data:]: the scheme is matched as
    written (lower case) and at the start of the subject only; of every
    other subject it is false. *)
Theorem isUrl_iff_scheme_prefix (s : string) :
  (isUrl s = true
   <-> starts_with "http://" s \/ starts_with "https://" s
       \/ starts_with "file://" s \/ starts_with "data:" s)
  /\ (isUrl s = false
      <-> ~ (starts_with "http://" s \/ starts_with "https://" s
             \/ starts_with "file://" s \/ starts_with "data:" s)).
Proof.
  assert (H : isUrl s = true
   <-> starts_with "http://" s \/ starts_with "https://" s
       \/ starts_with "file://" s \/ starts_with "data:" s).
  { unfold isUrl, RegExp.test. rewrite search_lang.
    rewrite !starts_with_chars. split.
    - intros (skipped & a & rest & Hs & Hl).
      apply isUrl_pattern_lang in Hl as [Hpos Ha].
      destruct skipped; [| done]. simpl in Hs. rewrite Hs.
      destruct Ha as [-> | [-> | [-> | ->]]]; eauto.
    - intros Hp.
      assert (exists a rest, chars s = a ++ rest
                /\ RegExp.lang isUrl_pattern 0 a) as (a & rest & Hs & Hl).
      { destruct Hp as [[rest Hs] | [[rest Hs] | [[rest Hs] | [rest Hs]]]];
          eexists _, rest; (split; [exact Hs |]); apply isUrl_pattern_lang; auto. }
      by exists [], a, rest. }
  split; [exact H |].
  rewrite <- H. destruct (isUrl s); split; congruence.
Qed.

Lemma isUrl_iff_scheme_prefix_witness : isUrl "https://koishi.chat" = true.
Proof.
  apply (proj1 (isUrl_iff_scheme_prefix "https://koishi.chat")).
  right. left. by exists "koishi.chat".
Defined.

(** ** What [makeOptions] leaves in the options object *)

Section resolution.

Variables (w : World) (config : Config).

Lemma lookup_with_defaults_ne (o : Options) key :
  key <> "viewport" -> key <> "scaleFactor" -> key <> "type" ->
  key <> "quality" -> key <> "timeout" -> key <> "delay" ->
  key <> "disableAnimations" ->
  with_defaults config o !! key = o !! key.
Proof.
  intros. unfold with_defaults.
  rewrite !lookup_default_prop_ne, lookup_default_quality_ne,
    !lookup_default_prop_ne by done.
  done.
Qed.

Lemma lookup_size_step_ne v (o : Options) key :
  key <> "width" -> key <> "height" -> snd (size_step v o) !! key = o !! key.
Proof.
  intros. unfold size_step, with_size.
  destruct (ToBoolean v); [| done].
  destruct v; try done. simpl. by rewrite !lookup_insert_ne.
Qed.

(** The defaulted properties are those of [with_defaults]. *)
Lemma lookup_makeOptions_defaults st key :
  key <> "launchOptions" -> key <> "width" -> key <> "height" ->
  object (snd (makeOptions w config st)) !! key
  = with_defaults config (object st) !! key.
Proof.
  intros. rewrite makeOptions_run. cbv zeta.
  destruct (findChrome w) as [path | e]; [| done].
  destruct (size_step _ _) as [r o'] eqn:E. cbn [snd object].
  replace o' with (snd (size_step (get (with_defaults config (object st)) "viewport")
    (<["launchOptions" := VLaunchOptions (launch_options config path)]>
       (with_defaults config (object st))))) by by rewrite E.
  rewrite lookup_size_step_ne, lookup_insert_ne by done. done.
Qed.

Lemma get_makeOptions_defaults st key :
  key <> "launchOptions" -> key <> "width" -> key <> "height" ->
  get (object (snd (makeOptions w config st))) key
  = get (with_defaults config (object st)) key.
Proof. intros. unfold get. by rewrite lookup_makeOptions_defaults. Qed.

Ltac get_defaults :=
  unfold with_defaults;
  repeat first
    [ rewrite get_default_prop_eq
    | rewrite get_default_prop_ne by done
    | rewrite get_default_quality_ne by done ].

Lemma get_with_defaults_timeout (o : Options) :
  get (with_defaults config o) "timeout"
  = if ToBoolean (get o "timeout") then get o "timeout" else VNumber (of_Z 60).
Proof. by get_defaults. Qed.

Lemma get_with_defaults_type (o : Options) :
  get (with_defaults config o) "type"
  = if ToBoolean (get o "type") then get o "type" else VString "png".
Proof. by get_defaults. Qed.

Lemma get_with_defaults_viewport (o : Options) :
  get (with_defaults config o) "viewport"
  = if ToBoolean (get o "viewport") then get o "viewport"
    else VString (default_viewport config).
Proof. by get_defaults. Qed.

Lemma get_with_defaults_quality (o : Options) :
  get (with_defaults config o) "quality"
  = if negb (ToBoolean (get o "quality"))
       && strict_not_equal_string (get (with_defaults config o) "type") "png"
    then VNumber (of_Z 1) else get o "quality".
Proof.
  rewrite get_with_defaults_type. unfold with_defaults.
  rewrite !get_default_prop_ne by done.
  unfold default_quality.
  rewrite !get_default_prop_ne by done.
  rewrite get_default_prop_eq. rewrite !get_default_prop_ne by done.
  destruct (_ && _).
  - apply get_insert_eq.
  - by rewrite !get_default_prop_ne by done.
Qed.

(** The resolved timeout: the caller's when it is truthy, 60 otherwise. *)
Lemma timeout_resolved st :
  get (object (snd (makeOptions w config st))) "timeout"
  = if ToBoolean (get (object st) "timeout") then get (object st) "timeout"
    else VNumber (of_Z 60).
Proof. rewrite get_makeOptions_defaults by done. apply get_with_defaults_timeout. Qed.

(** The resolved quality: 1 when the caller's is falsy and the resolved
    type is not "png", the caller's otherwise. *)
Lemma quality_resolved st :
  let o' := object (snd (makeOptions w config st)) in
  get o' "quality"
  = if negb (ToBoolean (get (object st) "quality"))
       && strict_not_equal_string (get o' "type") "png"
    then VNumber (of_Z 1) else get (object st) "quality".
Proof.
  cbv zeta. rewrite !get_makeOptions_defaults by done.
  apply get_with_defaults_quality.
Qed.

End resolution.

(** C1. A caller who supplies the timeout 0 does not get it: whatever
    the other options, the configuration and the collaborators, the
    resolved timeout is 60. *)
Theorem timeout_zero_resolves_to_60 w config (o : Options) tr :
  get (object (snd (makeOptions w config
      {| object := <["timeout" := VNumber (of_Z 0)]> o; trace := tr |})))
    "timeout"
  = VNumber (of_Z 60).
Proof.
  rewrite timeout_resolved. cbn [object]. by rewrite get_insert_eq.
Qed.

(** C2. A caller who supplies the quality 0 for a jpeg capture does not
    get it: whatever the other options, the configuration and the
    collaborators, the resolved quality is 1. *)
Theorem quality_zero_jpeg_resolves_to_1 w config (o : Options) tr :
  get (object (snd (makeOptions w config
      {| object := <["quality" := VNumber (of_Z 0)]>
                     (<["type" := VString "jpeg"]> o);
         trace := tr |})))
    "quality"
  = VNumber (of_Z 1).
Proof.
  rewrite quality_resolved. cbn [object].
  rewrite get_makeOptions_defaults, get_with_defaults_type by done.
  cbn [object]. rewrite get_insert_eq, get_insert_ne, get_insert_eq by done.
  done.
Qed.

(** What holds of the quality besides: with no quality supplied it is 1
    for every resolved type but "png", and stays unset for "png". *)
Lemma quality_absent_resolved w config st :
  object st !! "quality" = None ->
  let o' := object (snd (makeOptions w config st)) in
  (get o' "type" <> VString "png" -> o' !! "quality" = Some (VNumber (of_Z 1)))
  /\ (get o' "type" = VString "png" -> o' !! "quality" = None).
Proof.
  intros Hq. cbv zeta.
  rewrite get_makeOptions_defaults, lookup_makeOptions_defaults by done.
  unfold with_defaults at 2 4. rewrite !lookup_default_prop_ne by done.
  unfold default_quality.
  set (o3 := default_prop "type" _ _).
  assert (Ht : get (with_defaults config (object st)) "type" = get o3 "type").
  { unfold with_defaults. rewrite !get_default_prop_ne by done.
    by rewrite get_default_quality_ne. }
  assert (Hq3 : o3 !! "quality" = None).
  { unfold o3. by rewrite !lookup_default_prop_ne. }
  rewrite Ht.
  assert (Hg : get o3 "quality" = VUndefined) by (unfold get; by rewrite Hq3).
  rewrite Hg. cbn [ToBoolean negb andb].
  split; intros H.
  - destruct (get o3 "type") as [| | | t |] eqn:E; cbn [strict_not_equal_string];
      try by rewrite lookup_insert_eq.
    case_bool_decide; [congruence | cbn [negb]; by rewrite lookup_insert_eq].
  - rewrite H. cbn [strict_not_equal_string]. rewrite bool_decide_eq_true_2 by done.
    by cbn [negb].
Qed.

(** ** The launch options *)

Lemma makeOptions_returned w config st :
  fst (makeOptions w config st) = Returned tt ->
  exists path, findChrome w = Returned path.
Proof.
  rewrite makeOptions_run. cbv zeta.
  destruct (findChrome w) as [path | e]; [by exists path | done].
Qed.

Lemma get_makeOptions_launchOptions w config st path :
  findChrome w = Returned path ->
  get (object (snd (makeOptions w config st))) "launchOptions"
  = VLaunchOptions (launch_options config path).
Proof.
  intros Hf. rewrite makeOptions_run, Hf. cbv zeta.
  destruct (size_step _ _) as [r o'] eqn:E. cbn [snd object].
  unfold get.
  replace o' with (snd (size_step (get (with_defaults config (object st)) "viewport")
    (<["launchOptions" := VLaunchOptions (launch_options config path)]>
       (with_defaults config (object st))))) by by rewrite E.
  by rewrite lookup_size_step_ne, lookup_insert_eq.
Qed.

(** C6. After resolution [launchOptions.args] is the one entry
    [--proxy-server=<proxyServer>] if the browser configuration has a
    non-empty [proxyServer], and the empty sequence otherwise. *)
Theorem launch_args_proxy w config st :
  fst (makeOptions w config st) = Returned tt ->
  exists l,
    get (object (snd (makeOptions w config st))) "launchOptions" = VLaunchOptions l
    /\ ((exists p, proxyServer (browser config) = Some p /\ p <> EmptyString
                   /\ Launch.args l = ["--proxy-server=" +:+ p])
        \/ ((proxyServer (browser config) = None
             \/ proxyServer (browser config) = Some EmptyString)
            /\ Launch.args l = [])).
Proof.
  intros H. apply makeOptions_returned in H as [path Hf].
  exists (launch_options config path). split.
  - by apply get_makeOptions_launchOptions.
  - unfold launch_options, proxy_args. cbn [Launch.args].
    destruct (proxyServer (browser config)) as [p |]; cbn [optional ToBoolean ToString].
    + case_bool_decide as Hp; cbn [negb].
      * right. split; [right; by rewrite Hp | done].
      * left. by exists p.
    + right. split; [by left | done].
Qed.

Lemma launch_args_proxy_witness :
  exists l,
    get (object (snd (makeOptions chromium proxied (fresh ∅)))) "launchOptions"
    = VLaunchOptions l
    /\ Launch.args l = ["--proxy-server=http://127.0.0.1:7890"].
Proof.
  destruct (launch_args_proxy chromium proxied (fresh ∅))
    as (l & Hl & [(p & Hp & _ & Ha) | [[Hp | Hp] _]]).
  - vm_compute. reflexivity.
  - exists l. split; [exact Hl |]. injection Hp as <-. exact Ha.
  - discriminate Hp.
  - discriminate Hp.
Defined.

(** ** The frame of [makeOptions] *)

(** The properties [makeOptions] assigns. *)
Lemma lookup_makeOptions_frame w config st key :
  key <> "viewport" -> key <> "scaleFactor" -> key <> "type" ->
  key <> "quality" -> key <> "timeout" -> key <> "delay" ->
  key <> "disableAnimations" -> key <> "launchOptions" ->
  key <> "width" -> key <> "height" ->
  object (snd (makeOptions w config st)) !! key = object st !! key.
Proof.
  intros. rewrite lookup_makeOptions_defaults by done.
  by apply lookup_with_defaults_ne.
Qed.

(** C9. [makeOptions] works on the caller's object, and of its
    properties it assigns none but viewport, scaleFactor, type, quality,
    timeout, delay, disableAnimations, launchOptions, width and height:
    every other property, and so each of the other seventeen of the
    [Options] interface, is afterwards what the caller supplied. *)
Theorem makeOptions_frame w config st :
  (forall key, key ∉ assigned_properties ->
     object (snd (makeOptions w config st)) !! key = object st !! key)
  /\ Forall (fun key =>
       object (snd (makeOptions w config st)) !! key = object st !! key)
       passed_through_properties.
Proof.
  assert (H : forall key, key ∉ assigned_properties ->
     object (snd (makeOptions w config st)) !! key = object st !! key).
  { intros key Hk. unfold assigned_properties in Hk.
    repeat (apply not_elem_of_cons in Hk as [? Hk]).
    by apply lookup_makeOptions_frame. }
  split; [exact H |].
  unfold passed_through_properties.
  repeat (apply Forall_cons; split;
    [apply H; unfold assigned_properties;
     repeat (apply not_elem_of_cons; split; [done |]); apply not_elem_of_nil |]).
  apply Forall_nil. done.
Qed.

Lemma makeOptions_frame_witness :
  object (snd (makeOptions chromium defaultConfig
                 (fresh {["fullPage" := VBoolean true]}))) !! "fullPage"
  = Some (VBoolean true).
Proof.
  rewrite (proj1 (makeOptions_frame chromium defaultConfig
                    (fresh {["fullPage" := VBoolean true]})) "fullPage").
  - reflexivity.
  - unfold assigned_properties.
    repeat (apply not_elem_of_cons; split; [done |]). apply not_elem_of_nil.
Defined.

(** ** [render], run *)

Lemma render_run w urlOrContent config st :
  render w urlOrContent config st
  = match makeOptions w (default defaultConfig config) st with
    | (Threw e, st') => (Threw e, st')
    | (Returned _, st') =>
        let o := if isUrl urlOrContent then object st'
                 else <["inputType" := VString "html"]> (object st') in
        let tr := trace st' ++ [LoggerDebugOptions o] ++ [CaptureBuffer urlOrContent o] in
        match captureWebsite_buffer w urlOrContent o with
        | Returned image => (Returned image, {| object := o; trace := tr |})
        | Threw error =>
            (Threw (Error "capture website failed."),
             {| object := o; trace := tr ++ [LoggerDebugError error] |})
        end
    end.
Proof.
  unfold render. cbv zeta. unfold bind at 1.
  destruct (makeOptions w (default defaultConfig config) st) as [[[] | e] [o tr]];
    [| done].
  unfold bind, when, assign, options, emit, try_catch, call, ret, throw.
  destruct (isUrl urlOrContent); cbn [negb object trace];
    rewrite <- !app_assoc;
    by destruct (captureWebsite_buffer w urlOrContent _).
Qed.

(** C4. When no browser executable is found, [render] fails with the
    very error of the discovery, whatever it is, and not with the
    generic error of a failed capture; the discovery is the one call
    made, and the capture engine is not called. *)
Theorem render_browser_not_found w urlOrContent config st e :
  findChrome w = Threw e ->
  fst (render w urlOrContent config st) = Threw e
  /\ trace (snd (render w urlOrContent config st)) = trace st ++ [FindChrome]
  /\ filter is_capture (trace (snd (render w urlOrContent config st)))
     = filter is_capture (trace st).
Proof.
  intros Hf. rewrite render_run, makeOptions_run, Hf. cbv zeta. cbn [fst snd trace].
  repeat split. rewrite filter_app. cbn. apply app_nil_r.
Qed.

Lemma render_browser_not_found_witness :
  fst (render no_browser "https://koishi.chat" None (fresh ∅))
  = Threw (Error "No Chrome installations found.")
  /\ trace (snd (render no_browser "https://koishi.chat" None (fresh ∅)))
     = [FindChrome].
Proof.
  destruct (render_browser_not_found no_browser "https://koishi.chat" None
              (fresh ∅) (Error "No Chrome installations found.") eq_refl)
    as (Hr & Ht & _).
  split; [exact Hr | exact Ht].
Defined.

(** C5. Once the options are resolved the capture engine is called,
    with the subject and the options object.  If the call throws,
    whatever the error, [render] throws the one error
    [new Error("capture website failed.")], in which nothing of the
    engine's error is left; if it returns an image, [render] returns that
    image. *)
Theorem render_capture_outcome w urlOrContent config st :
  fst (makeOptions w (default defaultConfig config) st) = Returned tt ->
  exists o,
    CaptureBuffer urlOrContent o ∈ trace (snd (render w urlOrContent config st))
    /\ (forall error, captureWebsite_buffer w urlOrContent o = Threw error ->
          fst (render w urlOrContent config st)
          = Threw (Error "capture website failed."))
    /\ (forall image, captureWebsite_buffer w urlOrContent o = Returned image ->
          fst (render w urlOrContent config st) = Returned image).
Proof.
  intros H. rewrite render_run.
  destruct (makeOptions w (default defaultConfig config) st) as [[[] | e] [o tr]];
    [| done].
  cbv zeta. cbn [object trace].
  set (o' := if isUrl urlOrContent then o else <["inputType" := VString "html"]> o).
  exists o'.
  destruct (captureWebsite_buffer w urlOrContent o') as [image | error];
    cbn [fst snd trace]; repeat split; try congruence.
  - rewrite !elem_of_app, !list_elem_of_singleton. auto.
  - rewrite !elem_of_app, !list_elem_of_singleton. auto.
Qed.

Lemma render_capture_outcome_witness :
  fst (render broken_engine "https://koishi.chat" None (fresh ∅))
  = Threw (Error "capture website failed.").
Proof.
  destruct (render_capture_outcome broken_engine "https://koishi.chat" None
              (fresh ∅))
    as (o & _ & Herror & _).
  - vm_compute. reflexivity.
  - exact (Herror _ eq_refl).
Defined.

(** The options object that [render] leaves. *)
Lemma render_object w urlOrContent config st :
  object (snd (render w urlOrContent config st))
  = let st' := snd (makeOptions w (default defaultConfig config) st) in
    match fst (makeOptions w (default defaultConfig config) st) with
    | Threw _ => object st'
    | Returned _ =>
        if isUrl urlOrContent then object st'
        else <["inputType" := VString "html"]> (object st')
    end.
Proof.
  rewrite render_run.
  destruct (makeOptions w (default defaultConfig config) st) as [[[] | e] [o tr]];
    [| done].
  cbv zeta. cbn [fst snd object].
  by destruct (captureWebsite_buffer w urlOrContent _).
Qed.

(** C10. When the options are resolved, [render] assigns "html" to
    [inputType] if [isUrl] is false of the subject, and does not assign
    [inputType] if it is true: the property is then what it was, and is
    absent for a caller who did not supply one. *)
Theorem render_inputType w urlOrContent config st :
  fst (makeOptions w (default defaultConfig config) st) = Returned tt ->
  let o' := object (snd (render w urlOrContent config st)) in
  (isUrl urlOrContent = false -> o' !! "inputType" = Some (VString "html"))
  /\ (isUrl urlOrContent = true -> o' !! "inputType" = object st !! "inputType")
  /\ (object st !! "inputType" = None ->
      (o' !! "inputType" = Some (VString "html") <-> isUrl urlOrContent = false)
      /\ (isUrl urlOrContent = true -> o' !! "inputType" = None)).
Proof.
  intros H. cbv zeta. rewrite render_object, H. cbv zeta.
  pose proof (lookup_makeOptions_frame w (default defaultConfig config) st "inputType")
    as Hframe.
  destruct (isUrl urlOrContent).
  - rewrite Hframe by done. split; [done |]. split; [done |].
    intros Hn. rewrite Hn. split; [| done]. split; intros; done.
  - rewrite lookup_insert_eq. split; [done |]. split; [done |].
    intros _. split; [| done]. split; intros; done.
Qed.

Lemma render_inputType_witness :
  object (snd (render chromium "<p>hello</p>" None (fresh ∅))) !! "inputType"
  = Some (VString "html").
Proof.
  destruct (render_inputType chromium "<p>hello</p>" None (fresh ∅)) as (H & _).
  - vm_compute. reflexivity.
  - apply H. vm_compute. reflexivity.
Defined.

(** ** Resolving again *)


Lemma default_prop_fixed key d (o : Options) :
  ToBoolean (get o key) = true \/ o !! key = Some d -> default_prop key d o = o.
Proof.
  unfold default_prop. destruct (ToBoolean (get o key)); [done |].
  intros [H | H]; [done | by apply insert_id].
Qed.

Lemma default_prop_settled key d (o : Options) :
  ToBoolean (get (default_prop key d o) key) = true
  \/ default_prop key d o !! key = Some d.
Proof.
  unfold default_prop. destruct (ToBoolean (get o key)) eqn:E.
  - by left.
  - right. apply lookup_insert_eq.
Qed.

Lemma default_quality_fixed (o : Options) :
  negb (ToBoolean (get o "quality")) && strict_not_equal_string (get o "type") "png"
  = false ->
  default_quality o = o.
Proof. unfold default_quality. by intros ->. Qed.

Lemma default_quality_settled (o : Options) :
  negb (ToBoolean (get (default_quality o) "quality"))
  && strict_not_equal_string (get (default_quality o) "type") "png"
  = false.
Proof.
  unfold default_quality.
  destruct (negb (ToBoolean (get o "quality")) && _) eqn:E; [| done].
  by rewrite get_insert_eq.
Qed.

(** An object that agrees with a defaulted one on the defaulted
    properties is left as it is by the defaulting statements. *)
Lemma with_defaults_fixed config (o o' : Options) :
  (forall key,
     key ∈ ["viewport"; "scaleFactor"; "type"; "quality"; "timeout"; "delay";
            "disableAnimations"] ->
     o' !! key = with_defaults config o !! key) ->
  with_defaults config o' = o'.
Proof.
  intros H.
  assert (Hget : forall key,
     key ∈ ["viewport"; "scaleFactor"; "type"; "quality"; "timeout"; "delay";
            "disableAnimations"] ->
     get o' key = get (with_defaults config o) key).
  { intros key Hk. unfold get. by rewrite H. }
  unfold with_defaults at 1.
  rewrite (default_prop_fixed "viewport"); cycle 1.
  { rewrite (H "viewport"), (Hget "viewport") by in_list. unfold with_defaults.
    rewrite !get_default_prop_ne, !lookup_default_prop_ne by done.
    rewrite get_default_quality_ne, lookup_default_quality_ne by done.
    rewrite !get_default_prop_ne, !lookup_default_prop_ne by done.
    apply default_prop_settled. }
  rewrite (default_prop_fixed "scaleFactor"); cycle 1.
  { rewrite (H "scaleFactor"), (Hget "scaleFactor") by in_list. unfold with_defaults.
    rewrite !get_default_prop_ne, !lookup_default_prop_ne by done.
    rewrite get_default_quality_ne, lookup_default_quality_ne by done.
    rewrite !get_default_prop_ne, !lookup_default_prop_ne by done.
    apply default_prop_settled. }
  rewrite (default_prop_fixed "type"); cycle 1.
  { rewrite (H "type"), (Hget "type") by in_list. unfold with_defaults.
    rewrite !get_default_prop_ne, !lookup_default_prop_ne by done.
    rewrite get_default_quality_ne, lookup_default_quality_ne by done.
    apply default_prop_settled. }
  rewrite default_quality_fixed; cycle 1.
  { rewrite (Hget "quality"), (Hget "type") by in_list. unfold with_defaults.
    rewrite !get_default_prop_ne by done.
    apply default_quality_settled. }
  rewrite (default_prop_fixed "timeout"); cycle 1.
  { rewrite (H "timeout"), (Hget "timeout") by in_list. unfold with_defaults.
    rewrite !get_default_prop_ne, !lookup_default_prop_ne by done.
    apply default_prop_settled. }
  rewrite (default_prop_fixed "delay"); cycle 1.
  { rewrite (H "delay"), (Hget "delay") by in_list. unfold with_defaults.
    rewrite !get_default_prop_ne, !lookup_default_prop_ne by done.
    apply default_prop_settled. }
  rewrite (default_prop_fixed "disableAnimations"); cycle 1.
  { rewrite (H "disableAnimations"), (Hget "disableAnimations") by in_list. apply default_prop_settled. }
  done.
Qed.

Lemma with_size_again s (o : Options) : with_size s (with_size s o) = with_size s o.
Proof.
  unfold with_size.
  rewrite (insert_insert_ne _ "width" "height") by done.
  by rewrite !insert_insert_eq.
Qed.

(** The outcome and the object of [makeOptions] are those of the closed
    form, whatever the trace. *)
Lemma makeOptions_outcome_object w config st :
  (fst (makeOptions w config st), object (snd (makeOptions w config st)))
  = let o := with_defaults config (object st) in
    match findChrome w with
    | Threw e => (Threw e, o)
    | Returned path =>
        size_step (get o "viewport")
          (<["launchOptions" := VLaunchOptions (launch_options config path)]> o)
    end.
Proof.
  rewrite makeOptions_run. cbv zeta.
  destruct (findChrome w) as [path | e]; [| done].
  by destruct (size_step _ _).
Qed.

(** C8. Resolution is a function of the options, the configuration and
    the answer of the browser discovery, and of nothing else: with the
    same answer of [findChrome], whatever the capture engine is and
    whatever was called before, the outcome and the resolved object are
    the same.  And resolving an object that has been resolved, with the
    same answer of the discovery again, gives the same outcome and leaves
    the object as it is. *)
Theorem makeOptions_deterministic_idempotent
    w w' w'' config (o : Options) tr tr' tr'' :
  findChrome w' = findChrome w ->
  findChrome w'' = findChrome w ->
  let first := makeOptions w config {| object := o; trace := tr |} in
  let other := makeOptions w' config {| object := o; trace := tr' |} in
  let again :=
    makeOptions w'' config {| object := object (snd first); trace := tr'' |} in
  (fst other = fst first /\ object (snd other) = object (snd first))
  /\ (fst again = fst first /\ object (snd again) = object (snd first)).
Proof.
  intros Hw' Hw''. cbv zeta.
  split.
  { pose proof (makeOptions_outcome_object w config {| object := o; trace := tr |}) as H1.
    pose proof (makeOptions_outcome_object w' config {| object := o; trace := tr' |}) as H2.
    cbv zeta in H1, H2. cbn [object] in H1, H2. rewrite Hw', <- H1 in H2.
    by injection H2. }
  set (st := {| object := o; trace := tr |}).
  set (o1 := object (snd (makeOptions w config st))).
  assert (Hfix : with_defaults config o1 = o1).
  { apply (with_defaults_fixed config o). intros key Hk.
    unfold o1. apply lookup_makeOptions_defaults; intros ->;
      repeat (apply elem_of_cons in Hk as [Hk | Hk]; [done |]); by apply elem_of_nil in Hk. }
  assert (Hview : get o1 "viewport" = get (with_defaults config o) "viewport").
  { unfold o1. by rewrite get_makeOptions_defaults. }
  pose proof (makeOptions_outcome_object w config st) as H1.
  pose proof (makeOptions_outcome_object w'' config {| object := o1; trace := tr'' |}) as H2.
  cbv zeta in H1, H2. cbn [object] in H2. rewrite Hw'', Hfix, Hview in H2.
  fold o1 in H1. cbn [object] in H1. unfold st in H1. cbn [object] in H1.
  assert (Hgoal :
    (fst (makeOptions w'' config {| object := o1; trace := tr'' |}),
     object (snd (makeOptions w'' config {| object := o1; trace := tr'' |})))
    = (fst (makeOptions w config st), o1)); [| by injection Hgoal].
  rewrite H2. fold st in H1. rewrite H1.
  destruct (findChrome w) as [path | e].
  - assert (Ho1 : o1 = snd (size_step (get (with_defaults config o) "viewport")
      (<["launchOptions" := VLaunchOptions (launch_options config path)]>
         (with_defaults config o)))) by (by rewrite <- H1).
    unfold size_step in *.
    destruct (ToBoolean (get (with_defaults config o) "viewport")).
    + destruct (get (with_defaults config o) "viewport") as [| b | n | s | l];
        cbn [snd] in Ho1; rewrite Ho1;
        try (by rewrite insert_insert_eq).
      rewrite (insert_id (with_size s _)); [by rewrite with_size_again |].
      unfold with_size. rewrite !lookup_insert_ne by done. apply lookup_insert_eq.
    + cbn [snd] in Ho1. rewrite Ho1. by rewrite insert_insert_eq.
  - injection H1 as _ Ho1. by rewrite Ho1.
Qed.

Lemma makeOptions_deterministic_idempotent_witness :
  (fst (makeOptions broken_engine proxied
          {| object := {["type" := VString "jpeg"]}; trace := [FindChrome] |})
   = fst (makeOptions chromium proxied (fresh {["type" := VString "jpeg"]}))
   /\ object (snd (makeOptions broken_engine proxied
                     {| object := {["type" := VString "jpeg"]}; trace := [FindChrome] |}))
      = object (snd (makeOptions chromium proxied (fresh {["type" := VString "jpeg"]}))))
  /\ (fst (makeOptions broken_engine proxied
             (fresh (object (snd (makeOptions chromium proxied
                                    (fresh {["type" := VString "jpeg"]}))))))
      = fst (makeOptions chromium proxied (fresh {["type" := VString "jpeg"]}))
      /\ object (snd (makeOptions broken_engine proxied
                        (fresh (object (snd (makeOptions chromium proxied
                                               (fresh {["type" := VString "jpeg"]})))))))
         = object (snd (makeOptions chromium proxied (fresh {["type" := VString "jpeg"]})))).
Proof.
  apply (makeOptions_deterministic_idempotent chromium broken_engine broken_engine
           proxied {["type" := VString "jpeg"]} [] [FindChrome] []);
    reflexivity.
Defined.

(** C8, as the specification has it, fails: the options and the
    configuration are not all that resolution depends on.  With the same
    options and the same configuration, resolution returns where a
    browser is found and throws where none is; where another browser is
    found the launch options are others; and an object that has been
    resolved is changed when it is resolved again where another browser
    is found. *)
Lemma makeOptions_depends_on_discovery :
  fst (makeOptions chromium defaultConfig (fresh ∅)) = Returned tt
  /\ fst (makeOptions no_browser defaultConfig (fresh ∅))
     = Threw (Error "No Chrome installations found.")
  /\ fst (makeOptions google_chrome defaultConfig (fresh ∅)) = Returned tt
  /\ get (object (snd (makeOptions google_chrome defaultConfig (fresh ∅)))) "launchOptions"
     <> get (object (snd (makeOptions chromium defaultConfig (fresh ∅)))) "launchOptions"
  /\ object (snd (makeOptions google_chrome defaultConfig
                    (fresh (object (snd (makeOptions chromium defaultConfig (fresh ∅)))))))
     <> object (snd (makeOptions chromium defaultConfig (fresh ∅))).
Proof.
  split; [by vm_compute |]. split; [by vm_compute |]. split; [by vm_compute |].
  split.
  - intros H. vm_compute in H. discriminate H.
  - intros H. apply (f_equal (fun o => get o "launchOptions")) in H.
    vm_compute in H. discriminate H.
Qed.

(** ** The parser against the grammar *)

Lemma is_white_space_spec c :
  is_white_space c = true <-> StrWhiteSpaceChar c.
Proof.
  unfold StrWhiteSpaceChar, WhiteSpace, LineTerminator, is_white_space.
  rewrite !elem_of_cons, !elem_of_nil.
  by_cases; split; try discriminate; try done; intros; lia.
Qed.

Lemma is_digit_decimal c : is_digit 10 c = true -> DecimalDigit c.
Proof.
  unfold DecimalDigit, is_digit, digit_value.
  literal "0123456789".
  by_cases; try discriminate; intros _; one_of.
Qed.

Lemma is_digit_binary c : is_digit 2 c = true -> BinaryDigit c.
Proof.
  unfold BinaryDigit, is_digit, digit_value.
  literal "01".
  by_cases; try discriminate; intros _; one_of.
Qed.

Lemma is_digit_octal c : is_digit 8 c = true -> OctalDigit c.
Proof.
  unfold OctalDigit, is_digit, digit_value.
  literal "01234567".
  by_cases; try discriminate; intros _; one_of.
Qed.

Lemma is_digit_hex c : is_digit 16 c = true -> HexDigit c.
Proof.
  unfold HexDigit, is_digit, digit_value.
  literal "0123456789abcdefABCDEF".
  by_cases; try discriminate; intros _; one_of.
Qed.

Lemma decimal_is_digit c : DecimalDigit c -> is_digit 10 c = true.
Proof.
  unfold DecimalDigit.
  literal "0123456789".
  rewrite !elem_of_cons, elem_of_nil.
  intros H. repeat (destruct H as [-> | H]; [reflexivity |]). done.
Qed.

Lemma span_spec p cs a b :
  span p cs = (a, b) -> cs = a ++ b /\ Forall (fun c => p c = true) a.
Proof.
  revert a b. induction cs as [| c cs IH]; intros a b; simpl.
  - intros [= <- <-]. by split.
  - destruct (p c) eqn:E.
    + destruct (span p cs) as [a' b']. intros [= <- <-].
      destruct (IH a' b' eq_refl) as [-> Ha]. split; [done | by constructor].
    + intros [= <- <-]. by split.
Qed.

Lemma all_digits_some radix class ds :
  (forall c, is_digit radix c = true -> class c) ->
  all_digits radix ds = true -> some class ds.
Proof.
  intros Hc. unfold all_digits. rewrite andb_true_iff, forallb_forall.
  intros [Hn Hd]. split.
  - by destruct ds.
  - apply Forall_forall. intros c Hin. apply Hc, Hd. by apply list_elem_of_In.
Qed.

Lemma strip_sign_spec cs neg rest :
  strip_sign cs = (neg, rest) -> exists sign, Sign sign /\ cs = sign ++ rest.
Proof.
  unfold strip_sign. destruct cs as [| c cs].
  - intros [= <- <-]. exists []. split; [constructor | done].
  - destruct (N.eqb_spec c (code "+")) as [-> | _].
    { intros [= <- <-]. exists [code "+"]. split; [constructor | done]. }
    destruct (N.eqb_spec c (code "-")) as [-> | _].
    { intros [= <- <-]. exists [code "-"]. split; [constructor | done]. }
    intros [= <- <-]. exists []. split; [constructor | done].
Qed.

Lemma parse_exponent_part_sound cs e :
  parse_exponent_part cs = Some e -> opt ExponentPart cs.
Proof.
  unfold parse_exponent_part. destruct cs as [| c r]; [by left |].
  destruct (_ || _) eqn:E; [| done].
  unfold parse_signed_integer.
  destruct (strip_sign r) as [neg ds] eqn:Es.
  destruct (all_digits 10 ds) eqn:Ed; [| done]. intros _. right.
  apply strip_sign_spec in Es as (sign & Hs & ->).
  constructor; [| done | by apply (all_digits_some 10), Ed; apply is_digit_decimal].
  apply orb_true_iff in E as [E | E]; apply N.eqb_eq in E; auto.
Qed.

Lemma parse_unsigned_decimal_sound cs m e :
  parse_unsigned_decimal cs = Some (m, e) -> StrUnsignedDecimalLiteral cs.
Proof.
  unfold parse_unsigned_decimal.
  destruct (span (is_digit 10) cs) as [ip r1] eqn:E1.
  apply span_spec in E1 as [-> Hip].
  assert (Hdigits : forall ds, Forall (fun c => is_digit 10 c = true) ds ->
                               Forall DecimalDigit ds).
  { intros ds H. eapply Forall_impl; [exact H | apply is_digit_decimal]. }
  assert (Hint :
    (if is_nonempty ip then
       match parse_exponent_part r1 with
       | Some e => Some (digits_value 10 ip, e)
       | None => None
       end
     else None) = Some (m, e) -> StrUnsignedDecimalLiteral (ip ++ r1)).
  { destruct ip as [| d ip]; [done |]. cbn [is_nonempty].
    destruct (parse_exponent_part r1) as [e' |] eqn:Ee; [| done]. intros _.
    apply Unsigned_integer; [split; [done | by apply Hdigits] |].
    by apply parse_exponent_part_sound in Ee. }
  destruct r1 as [| c r2]; [exact Hint |].
  destruct (N.eqb_spec c (code ".")) as [-> | _]; [| exact Hint].
  destruct (span (is_digit 10) r2) as [fp r3] eqn:E2.
  apply span_spec in E2 as [-> Hfp].
  destruct (is_nonempty ip || is_nonempty fp) eqn:En; [| done].
  destruct (parse_exponent_part r3) as [e' |] eqn:Ee; [| done]. intros _.
  apply parse_exponent_part_sound in Ee.
  destruct ip as [| d ip].
  - destruct fp as [| d fp]; [done |].
    apply Unsigned_fraction; [split; [done | by apply Hdigits] | done].
  - apply Unsigned_point; [split; [done | by apply Hdigits] | | done].
    destruct fp as [| d' fp]; [by left | right].
    split; [done | by apply Hdigits].
Qed.

Lemma parse_decimal_sound cs x :
  parse_decimal cs = Some x -> StrDecimalLiteral cs.
Proof.
  unfold parse_decimal.
  destruct (strip_sign cs) as [neg body] eqn:Es.
  apply strip_sign_spec in Es as (sign & Hs & ->).
  case_bool_decide as Hb.
  - intros _. rewrite Hb. constructor; [done | constructor].
  - destruct (parse_unsigned_decimal body) as [[m e] |] eqn:Ep; [| done].
    intros _. constructor; [done |]. by apply parse_unsigned_decimal_sound in Ep.
Qed.

Lemma parse_non_decimal_sound cs x :
  parse_non_decimal cs = Some x -> NonDecimalIntegerLiteral cs.
Proof.
  unfold parse_non_decimal.
  destruct cs as [| z [| r ds]]; [done | done |].
  destruct (N.eqb r (code "x") || N.eqb r (code "X")) eqn:Ex.
  { destruct (N.eqb_spec z (code "0")) as [-> | _]; [| done]. cbn [andb].
    destruct (all_digits 16 ds) eqn:Ed; [| done]. intros _.
    apply Hex; [| by apply (all_digits_some 16), Ed; apply is_digit_hex].
    apply orb_true_iff in Ex as [E | E]; apply N.eqb_eq in E; auto. }
  destruct (N.eqb r (code "o") || N.eqb r (code "O")) eqn:Eo.
  { destruct (N.eqb_spec z (code "0")) as [-> | _]; [| done]. cbn [andb].
    destruct (all_digits 8 ds) eqn:Ed; [| done]. intros _.
    apply Octal; [| by apply (all_digits_some 8), Ed; apply is_digit_octal].
    apply orb_true_iff in Eo as [E | E]; apply N.eqb_eq in E; auto. }
  destruct (N.eqb r (code "b") || N.eqb r (code "B")) eqn:Eb; [| done].
  destruct (N.eqb_spec z (code "0")) as [-> | _]; [| done]. cbn [andb].
  destruct (all_digits 2 ds) eqn:Ed; [| done]. intros _.
  apply Binary; [| by apply (all_digits_some 2), Ed; apply is_digit_binary].
  apply orb_true_iff in Eb as [E | E]; apply N.eqb_eq in E; auto.
Qed.

(** *** White space *)

Lemma drop_white_space_spec cs :
  exists ws, cs = ws ++ drop_white_space cs /\ Forall StrWhiteSpaceChar ws.
Proof.
  induction cs as [| c cs (ws & IH & Hws)]; simpl.
  - by exists [].
  - destruct (is_white_space c) eqn:E.
    + exists (c :: ws). split; [by rewrite IH at 1 |].
      constructor; [by apply is_white_space_spec | done].
    + by exists [].
Qed.

Lemma trim_spec cs :
  exists before after,
    cs = before ++ trim cs ++ after
    /\ Forall StrWhiteSpaceChar before /\ Forall StrWhiteSpaceChar after.
Proof.
  unfold trim.
  destruct (drop_white_space_spec cs) as (before & H1 & Hb).
  destruct (drop_white_space_spec (rev (drop_white_space cs))) as (after & H2 & Ha).
  exists before, (rev after). split; [| split; [done | by apply Forall_rev]].
  rewrite <- rev_app_distr, <- H2, rev_involutive. done.
Qed.

Lemma drop_white_space_blank cs :
  Forall StrWhiteSpaceChar cs -> drop_white_space cs = [].
Proof.
  induction 1 as [| c cs Hc _ IH]; simpl; [done |].
  apply is_white_space_spec in Hc. by rewrite Hc.
Qed.

Lemma trim_blank cs : Forall StrWhiteSpaceChar cs <-> trim cs = [].
Proof.
  split.
  - intros H. unfold trim. by rewrite (drop_white_space_blank cs).
  - intros H. destruct (trim_spec cs) as (before & after & Hcs & Hb & Ha).
    rewrite Hcs, H. apply Forall_app. split; [done | apply Ha].
Qed.

(** A string that is neither blank nor numeric converts to [NaN], and
    a blank one to [+0]. *)
Lemma StringToNumber_not_numeric s :
  ~ blank s -> ~ numeric s -> StringToNumber s = NaN.
Proof.
  intros Hb Hn. unfold StringToNumber.
  destruct (trim (units s)) as [| c cs] eqn:Et.
  { destruct Hb. by apply trim_blank. }
  assert (Hlit : StrNumericLiteral (c :: cs) -> False).
  { intros Hl. apply Hn.
    destruct (trim_spec (units s)) as (before & after & Hcs & Hbe & Haf).
    rewrite Et in Hcs. by exists before, (c :: cs), after. }
  destruct (parse_non_decimal (c :: cs)) as [x |] eqn:E1.
  { destruct Hlit. right. by apply parse_non_decimal_sound in E1. }
  destruct (parse_decimal (c :: cs)) as [x |] eqn:E2; [| done].
  destruct Hlit. left. by apply parse_decimal_sound in E2.
Qed.

Lemma StringToNumber_blank s : blank s -> StringToNumber s = S754_zero false.
Proof.
  intros Hb. unfold StringToNumber. apply trim_blank in Hb. by rewrite Hb.
Qed.

(** *** Integers *)

Local Open Scope Z_scope.

Lemma digits2_pos_bounds p :
  2 ^ (Zpos (digits2_pos p) - 1) <= Zpos p < 2 ^ Zpos (digits2_pos p).
Proof.
  induction p as [p IH | p IH |]; cbn [digits2_pos]; [| | by cbn].
  - rewrite Pos2Z.inj_succ, Z.pow_succ_r by lia.
    replace (Z.succ (Zpos (digits2_pos p)) - 1) with (Z.succ (Zpos (digits2_pos p) - 1)) by lia.
    rewrite Z.pow_succ_r by lia. lia.
  - rewrite Pos2Z.inj_succ, Z.pow_succ_r by lia.
    replace (Z.succ (Zpos (digits2_pos p)) - 1) with (Z.succ (Zpos (digits2_pos p) - 1)) by lia.
    rewrite Z.pow_succ_r by lia. lia.
Qed.

Lemma digits2_pos_unique q n :
  2 ^ (n - 1) <= Zpos q < 2 ^ n -> Zpos (digits2_pos q) = n.
Proof.
  intros [Hl Hu]. pose proof (digits2_pos_bounds q) as [Hl' Hu'].
  destruct (Z.lt_trichotomy (Zpos (digits2_pos q)) n) as [H | [H | H]]; [| done |].
  - assert (2 ^ Zpos (digits2_pos q) <= 2 ^ (n - 1)) by (apply Z.pow_le_mono_r; lia). lia.
  - assert (0 <= n \/ n < 0) as [Hn | Hn] by lia.
    + assert (2 ^ n <= 2 ^ (Zpos (digits2_pos q) - 1)) by (apply Z.pow_le_mono_r; lia). lia.
    + rewrite (Z.pow_neg_r 2 n) in Hu by lia. lia.
Qed.

Lemma iter_xO p k : Zpos (Pos.iter xO p k) = Zpos p * 2 ^ Zpos k.
Proof.
  induction k as [| k IH] using Pos.peano_ind.
  - cbn. lia.
  - rewrite Pos.iter_succ, Pos2Z.inj_xO, IH, Pos2Z.inj_succ, Z.pow_succ_r by lia. lia.
Qed.

(** An integer below [2^53] is a Number, exactly. *)
Lemma of_Z_exact z : 0 <= z < 2 ^ 53 -> integer (of_Z z) z.
Proof.
  intros [Hz Hlt]. destruct z as [| p | p]; [done | | lia].
  unfold of_Z, binary_normalize, binary_round.
  pose proof (digits2_pos_bounds p) as [Hl Hu].
  set (d := Zpos (digits2_pos p)) in *.
  assert (Hd : 1 <= d <= 53).
  { split; [unfold d; lia |].
    destruct (Z.le_gt_cases d 53) as [H | H]; [done |].
    assert (2 ^ 53 <= 2 ^ (d - 1)) by (apply Z.pow_le_mono_r; lia). lia. }
  assert (Hfexp : fexp prec emax (d + 0) = d - 53).
  { unfold fexp, emin, prec, emax. lia. }
  rewrite Hfexp.
  assert (Halign : exists mz, shl_align p 0 (d - 53) = (mz, d - 53)
                              /\ Zpos mz = Zpos p * 2 ^ (53 - d)).
  { unfold shl_align. destruct (d - 53 - 0) as [| k | k] eqn:E; [| lia |].
    - exists p. replace (d - 53) with 0 by lia. replace (53 - d) with 0 by lia.
      split; [done | lia].
    - exists (Pos.iter xO p k). split; [done |].
      rewrite iter_xO. f_equal. f_equal. lia. }
  destruct Halign as (mz & -> & Hmz).
  assert (Hdz : Zpos (digits2_pos mz) = 53).
  { apply digits2_pos_unique. rewrite Hmz.
    replace (2 ^ (53 - 1)) with (2 ^ (d - 1) * 2 ^ (53 - d))
      by (rewrite <- Z.pow_add_r by lia; f_equal; lia).
    replace (2 ^ 53) with (2 ^ d * 2 ^ (53 - d))
      by (rewrite <- Z.pow_add_r by lia; f_equal; lia).
    assert (0 < 2 ^ (53 - d)) by (apply Z.pow_pos_nonneg; lia). nia. }
  unfold binary_round_aux, shr_fexp. cbn [Zdigits2]. rewrite Hdz.
  assert (Hf2 : fexp prec emax (53 + (d - 53)) - (d - 53) = 0).
  { unfold fexp, emin, prec, emax. lia. }
  rewrite Hf2. cbn [shr shr_record_of_loc shr_m loc_of_shr_record round_nearest_even Zdigits2].
  rewrite Hdz, Hf2. cbn [shr shr_m].
  replace (d - 53 <=? emax - prec) with true
    by (symmetry; apply Z.leb_le; unfold emax, prec; lia).
  cbn [integer cond_Zopp]. split; [lia |].
  rewrite Hmz. f_equal. f_equal. lia.
Qed.

Local Close Scope Z_scope.

(** *** Numbers written in decimal *)

Lemma decimal_nonnil n : N.to_uint n <> Decimal.Nil.
Proof.
  destruct n as [| p]; [done |]. apply DecimalPos.Unsigned.to_uint_nonnil.
Qed.

Lemma decimal_unfold n : decimal n = NilEmpty.string_of_uint (N.to_uint n).
Proof.
  unfold decimal, NilZero.string_of_uint.
  pose proof (decimal_nonnil n). by destruct (N.to_uint n).
Qed.

(** The bytes of a number written in decimal are digits. *)
Lemma string_of_uint_chars d :
  Forall (fun c => c ∈ chars "0123456789") (chars (NilEmpty.string_of_uint d)).
Proof.
  induction d; simpl; constructor; try done; in_list.
Qed.

Lemma units_string_of_uint d :
  units (NilEmpty.string_of_uint d) = map code (chars (NilEmpty.string_of_uint d)).
Proof.
  apply decode_ascii. eapply Forall_impl; [apply string_of_uint_chars |].
  intros c. cbn. rewrite !elem_of_cons, elem_of_nil.
  intros H. repeat (destruct H as [-> | H]; [by vm_compute |]). done.
Qed.

Lemma string_of_uint_digits d :
  Forall DecimalDigit (units (NilEmpty.string_of_uint d)).
Proof.
  rewrite units_string_of_uint. apply Forall_map.
  eapply Forall_impl; [apply string_of_uint_chars |].
  intros c. unfold DecimalDigit. literal "0123456789". cbn.
  rewrite !elem_of_cons, !elem_of_nil.
  intros H. repeat (destruct H as [-> | H]; [cbn; lia |]). done.
Qed.

Lemma digits_value_string_of_uint d : forall acc,
  fold_left (fun acc c => acc * 10 + default 0 (digit_value 10 c))%N
    (map code (chars (NilEmpty.string_of_uint d))) acc
  = (DecimalPos.Unsigned.of_lu (Decimal.rev d)
     + acc * 10 ^ DecimalPos.Unsigned.usize d)%N.
Proof.
  induction d; intros acc; cbn [NilEmpty.string_of_uint chars map
    Stdlib.Strings.String.list_ascii_of_string fold_left DecimalPos.Unsigned.usize];
    [cbn; lia | ..];
    rewrite IHd; unfold Decimal.rev; cbn [Decimal.revapp];
    rewrite !(DecimalPos.Unsigned.of_lu_revapp d);
    cbn [DecimalPos.Unsigned.of_lu];
    rewrite N.pow_succ_r';
    change (default 0%N (digit_value 10 _)) with 0%N ||
    change (default 0%N (digit_value 10 _)) with 1%N ||
    change (default 0%N (digit_value 10 _)) with 2%N ||
    change (default 0%N (digit_value 10 _)) with 3%N ||
    change (default 0%N (digit_value 10 _)) with 4%N ||
    change (default 0%N (digit_value 10 _)) with 5%N ||
    change (default 0%N (digit_value 10 _)) with 6%N ||
    change (default 0%N (digit_value 10 _)) with 7%N ||
    change (default 0%N (digit_value 10 _)) with 8%N ||
    change (default 0%N (digit_value 10 _)) with 9%N;
    lia.
Qed.

Lemma digits_value_decimal n : digits_value 10 (units (decimal n)) = n.
Proof.
  unfold digits_value.
  rewrite decimal_unfold, units_string_of_uint, digits_value_string_of_uint.
  rewrite <- DecimalPos.Unsigned.of_uint_alt, N.mul_0_l, N.add_0_r.
  apply DecimalN.Unsigned.of_to.
Qed.

Lemma decimal_digits n : some DecimalDigit (units (decimal n)).
Proof.
  split.
  - rewrite decimal_unfold, units_string_of_uint. pose proof (decimal_nonnil n).
    by destruct (N.to_uint n).
  - rewrite decimal_unfold. apply string_of_uint_digits.
Qed.

Lemma decimal_digit_facts c :
  DecimalDigit c ->
  is_digit 10 c = true /\ is_white_space c = false
  /\ N.eqb c (code "+") = false /\ N.eqb c (code "-") = false
  /\ N.eqb c (code "x") = false /\ N.eqb c (code "X") = false
  /\ N.eqb c (code "o") = false /\ N.eqb c (code "O") = false
  /\ N.eqb c (code "b") = false /\ N.eqb c (code "B") = false
  /\ c <> code "I".
Proof.
  unfold DecimalDigit. literal "0123456789". rewrite !elem_of_cons, elem_of_nil.
  intros H. repeat (destruct H as [-> | H]; [by repeat split |]). done.
Qed.

Lemma drop_white_space_id cs :
  Forall (fun c => is_white_space c = false) cs -> drop_white_space cs = cs.
Proof. destruct 1 as [| c cs Hc _]; simpl; [done | by rewrite Hc]. Qed.

Lemma trim_id cs :
  Forall (fun c => is_white_space c = false) cs -> trim cs = cs.
Proof.
  intros H. unfold trim. rewrite (drop_white_space_id cs) by done.
  rewrite drop_white_space_id by by apply Forall_rev.
  apply rev_involutive.
Qed.

Lemma span_all p cs :
  Forall (fun c => p c = true) cs -> span p cs = (cs, []).
Proof.
  induction 1 as [| c cs Hc _ IH]; simpl; [done | by rewrite Hc, IH].
Qed.

(** A number written in decimal converts to that number. *)
Lemma StringToNumber_decimal n : StringToNumber (decimal n) = of_Z (Z.of_N n).
Proof.
  unfold StringToNumber.
  pose proof (decimal_digits n) as [Hne Hd].
  pose proof (digits_value_decimal n) as Hv.
  set (ds := units (decimal n)) in *.
  assert (Hf : Forall (fun c => is_digit 10 c = true /\ is_white_space c = false
    /\ N.eqb c (code "+") = false /\ N.eqb c (code "-") = false
    /\ N.eqb c (code "x") = false /\ N.eqb c (code "X") = false
    /\ N.eqb c (code "o") = false /\ N.eqb c (code "O") = false
    /\ N.eqb c (code "b") = false /\ N.eqb c (code "B") = false
    /\ c <> code "I") ds).
  { eapply Forall_impl; [exact Hd | apply decimal_digit_facts]. }
  rewrite trim_id by (eapply Forall_impl; [exact Hf | by intros c (_ & ? & _)]).
  assert (Hspan : span (is_digit 10) ds = (ds, [])).
  { apply span_all. eapply Forall_impl; [exact Hf | by intros c (? & _)]. }
  destruct ds as [| c cs]; [done |].
  assert (Hnd : parse_non_decimal (c :: cs) = None).
  { unfold parse_non_decimal. destruct cs as [| r cs]; [done |].
    apply Forall_cons in Hf as [_ Hf]. apply Forall_cons in Hf as [Hr _].
    destruct Hr as (_ & _ & _ & _ & -> & -> & -> & -> & -> & -> & _). done. }
  rewrite Hnd. unfold parse_decimal, strip_sign.
  apply Forall_cons in Hf as [Hc _].
  destruct Hc as (_ & _ & -> & -> & _ & _ & _ & _ & _ & _ & HI).
  rewrite bool_decide_eq_false_2 by (literal "Infinity"; intros [= ? _]; done).
  unfold parse_unsigned_decimal. rewrite Hspan. cbn [is_nonempty parse_exponent_part].
  rewrite Hv. unfold of_decimal. destruct n as [| p]; [done |].
  cbn [Z.leb Z.compare cond_Zopp Z.of_N]. by rewrite Z.pow_0_r, Z.mul_1_r.
Qed.

(** *** Splitting *)

Lemma split_chars_none sep cs :
  Forall (fun c => Ascii.eqb c sep = false) cs -> split_chars sep cs = [cs].
Proof.
  induction 1 as [| c cs Hc _ IH]; simpl; [done | by rewrite Hc, IH].
Qed.

Lemma split_chars_app sep a b :
  Forall (fun c => Ascii.eqb c sep = false) a ->
  split_chars sep (a ++ sep :: b) = a :: split_chars sep b.
Proof.
  induction 1 as [| c cs Hc _ IH]; simpl.
  - by rewrite Ascii.eqb_refl.
  - by rewrite Hc, IH.
Qed.

Lemma decimal_chars n : Forall (fun c => c ∈ chars "0123456789") (chars (decimal n)).
Proof. rewrite decimal_unfold. apply string_of_uint_chars. Qed.

Lemma split_decimal a b :
  split "x" (decimal a +:+ "x" +:+ decimal b) = [decimal a; decimal b].
Proof.
  unfold split. rewrite !chars_app. cbn [chars Stdlib.Strings.String.list_ascii_of_string app].
  assert (Hx : forall n, Forall (fun c => Ascii.eqb c "x" = false) (chars (decimal n))).
  { intros n. eapply Forall_impl; [apply decimal_chars |]. intros c. cbn.
    rewrite !elem_of_cons, elem_of_nil.
    intros H. repeat (destruct H as [-> | H]; [done |]). done. }
  rewrite split_chars_app, split_chars_none by apply Hx.
  cbn [map]. by rewrite !text_chars.
Qed.

(** Nothing is numeric about the empty string. *)
Lemma unsigned_nonempty cs : StrUnsignedDecimalLiteral cs -> cs <> [].
Proof.
  destruct 1 as [| ip fp ex [Hip _] _ _ | fp ex _ _ | ip ex [Hip _] _];
    try done; by destruct ip.
Qed.

Lemma empty_not_numeric : ~ numeric EmptyString.
Proof.
  intros (before & literal & after & H & _ & _ & Hl). cbn in H.
  symmetry in H. apply app_eq_nil in H as [_ H]. apply app_eq_nil in H as [-> _].
  destruct Hl as [Hl | Hl]; [| inversion Hl].
  inversion Hl as [sign body Hs Hb Heq].
  apply app_eq_nil in Heq as [_ ->]. by apply unsigned_nonempty in Hb.
Qed.

(** *** Splitting, on the code units *)

Section utf8_split.
Import UTF8.
Local Open Scope N_scope.

Lemma split_units_none sep us : sep ∉ us -> split_units sep us = [us].
Proof.
  induction us as [| u us IH]; [done |].
  intros [Hu Hus]%not_elem_of_cons. cbn [split_units].
  rewrite (proj2 (N.eqb_neq u sep)) by done. by rewrite IH.
Qed.

Lemma split_units_app sep a b :
  sep ∉ a -> split_units sep (a ++ sep :: b) = a :: split_units sep b.
Proof.
  induction a as [| u a IH]; cbn [app split_units].
  - by rewrite N.eqb_refl.
  - intros [Hu Ha]%not_elem_of_cons.
    rewrite (proj2 (N.eqb_neq u sep)) by done. by rewrite IH.
Qed.

Lemma code_inj c d : code c = code d -> c = d.
Proof.
  intros H. rewrite <- (Ascii.ascii_N_embedding c), <- (Ascii.ascii_N_embedding d).
  unfold code in H. by rewrite H.
Qed.

Lemma decode_free sep cs :
  code sep < 0x80 -> sep ∉ cs -> code sep ∉ decode cs.
Proof.
  intros Hs Hn Hin. destruct (decode_elem_ascii _ _ Hs Hin) as (c & Hc & Heq).
  apply code_inj in Heq as ->. done.
Qed.

Lemma not_elem_of_eqb (sep : ascii) cs :
  sep ∉ cs -> Forall (fun c => Ascii.eqb c sep = false) cs.
Proof.
  intros H. apply Forall_forall. intros c Hc. apply Ascii.eqb_neq.
  intros ->. done.
Qed.

(** Splitting at an ASCII character is the same on the bytes as on the
    code units. *)
Lemma decode_split_chars sep cs :
  code sep < 0x80 ->
  map decode (split_chars sep cs) = split_units (code sep) (decode cs).
Proof.
  intros Hs.
  induction cs as [cs IH] using (induction_ltof1 _ (@length ascii)).
  unfold ltof in IH.
  destruct (decide (sep ∈ cs)) as [Hin | Hn].
  - apply list_elem_of_split_l in Hin as (a & b & -> & Ha).
    rewrite split_chars_app by by apply not_elem_of_eqb.
    rewrite decode_app_ascii by done.
    rewrite split_units_app by by apply decode_free.
    cbn [map]. f_equal. apply IH. rewrite length_app. cbn. lia.
  - rewrite split_chars_none by by apply not_elem_of_eqb.
    by rewrite split_units_none by by apply decode_free.
Qed.

Lemma units_split sep s :
  code sep < 0x80 ->
  map units (split sep s) = split_units (code sep) (units s).
Proof.
  intros Hs. unfold split, units. rewrite <- decode_split_chars by done.
  rewrite map_map. apply map_ext. intros cs. unfold chars, text.
  by rewrite Stdlib.Strings.String.list_ascii_of_string_of_list_ascii.
Qed.

End utf8_split.

(** ** The size of the viewport *)

Lemma default_viewport_truthy config :
  ToBoolean (VString (default_viewport config)) = true.
Proof.
  unfold default_viewport. cbn [ToBoolean].
  rewrite bool_decide_eq_false_2; [done |].
  by destruct (ToString _).
Qed.

Lemma with_defaults_viewport_truthy config (o : Options) :
  ToBoolean (get (with_defaults config o) "viewport") = true.
Proof.
  rewrite get_with_defaults_viewport.
  destruct (ToBoolean (get o "viewport")) eqn:E; [done |].
  apply default_viewport_truthy.
Qed.

(** With a browser found and a string for the viewport, [makeOptions]
    returns, with the two numbers stored. *)
Lemma makeOptions_size w config st path s :
  findChrome w = Returned path ->
  get (object (snd (makeOptions w config st))) "viewport" = VString s ->
  fst (makeOptions w config st) = Returned tt
  /\ get (object (snd (makeOptions w config st))) "width"
     = VNumber (ToNumber (element (split "x" s) 0))
  /\ get (object (snd (makeOptions w config st))) "height"
     = VNumber (ToNumber (element (split "x" s) 1)).
Proof.
  intros Hf. rewrite get_makeOptions_defaults by done. intros Hv.
  pose proof (with_defaults_viewport_truthy config (object st)) as Ht.
  rewrite makeOptions_run, Hf. cbv zeta. unfold size_step.
  rewrite Ht, Hv. cbn [fst snd object]. unfold with_size.
  split; [done |]. split.
  - by rewrite get_insert_ne, get_insert_eq.
  - by rewrite get_insert_eq.
Qed.

(** C7. With a browser found, [makeOptions] returns whatever the
    resolved viewport string is: it splits the string at "x" and stores
    the conversion to Number of the first segment as the width and of the
    second as the height, [NaN] if there is no second.  For a string
    "<width>x<height>" of two numbers written in decimal these are the
    numbers written, as Numbers (which a number below 2^53 is exactly).
    A segment that is not blank and not numeric gives [NaN], and a blank
    segment gives 0, where blank and numeric are said of the code units
    of the segment, with all the white space of StrWhiteSpaceChar.  The
    segments are those of the code units of the string. *)
Theorem viewport_size w config st path s :
  findChrome w = Returned path ->
  get (object (snd (makeOptions w config st))) "viewport" = VString s ->
  let o' := object (snd (makeOptions w config st)) in
  fst (makeOptions w config st) = Returned tt
  /\ (forall a b : N,
        s = decimal a +:+ "x" +:+ decimal b ->
        get o' "width" = VNumber (of_Z (Z.of_N a))
        /\ get o' "height" = VNumber (of_Z (Z.of_N b))
        /\ ((a < 2 ^ 53)%N -> integer (of_Z (Z.of_N a)) (Z.of_N a))
        /\ ((b < 2 ^ 53)%N -> integer (of_Z (Z.of_N b)) (Z.of_N b)))
  /\ (forall i key, (i, key) ∈ size_properties ->
        match split "x" s !! i with
        | Some segment =>
            get o' key = VNumber (StringToNumber segment)
            /\ (blank segment -> get o' key = VNumber (S754_zero false))
            /\ (~ blank segment -> ~ numeric segment -> get o' key = VNumber NaN)
        | None => get o' key = VNumber NaN
        end)
  /\ map units (split "x" s) = split_units (code "x") (units s).
Proof.
  intros Hf Hv. cbv zeta.
  destruct (makeOptions_size w config st path s Hf Hv) as (Hr & Hw & Hh).
  split; [exact Hr |]. split; [| split; [| by apply units_split]].
  - intros a b ->. rewrite Hw, Hh, split_decimal. unfold element. cbn [lookup list_lookup].
    unfold ToNumber. rewrite !StringToNumber_decimal.
    split; [done |]. split; [done |].
    split; intros Hlt; apply of_Z_exact; lia.
  - intros i key Hin. unfold size_properties in Hin.
    assert (Hkey : get (object (snd (makeOptions w config st))) key
                   = VNumber (ToNumber (element (split "x" s) i))).
    { apply elem_of_cons in Hin as [[= -> ->] | Hin]; [done |].
      apply elem_of_cons in Hin as [[= -> ->] | Hin]; [done |].
      by apply elem_of_nil in Hin. }
    rewrite Hkey. unfold element.
    destruct (split "x" s !! i) as [segment |]; [| done].
    unfold ToNumber. split; [done |]. split.
    + intros Hb. by rewrite StringToNumber_blank.
    + intros Hb Hn. by rewrite StringToNumber_not_numeric.
Qed.

Lemma viewport_size_witness :
  fst (makeOptions chromium defaultConfig (fresh {["viewport" := VString "1280x800"]}))
  = Returned tt
  /\ get (object (snd (makeOptions chromium defaultConfig
             (fresh {["viewport" := VString "1280x800"]})))) "width"
     = VNumber (of_Z 1280)
  /\ get (object (snd (makeOptions chromium defaultConfig
             (fresh {["viewport" := VString "1280x800"]})))) "height"
     = VNumber (of_Z 800).
Proof.
  destruct (viewport_size chromium defaultConfig
              (fresh {["viewport" := VString "1280x800"]})
              "/usr/bin/chromium" "1280x800" eq_refl)
    as (Hr & Hd & _).
  - vm_compute. reflexivity.
  - split; [exact Hr |].
    destruct (Hd 1280%N 800%N) as (Hw & Hh & _); [vm_compute; reflexivity |].
    split; [exact Hw | exact Hh].
Defined.

(** C7, as the specification has it, fails on an empty segment.  The
    viewport "x600" has an empty first segment, which is not numeric; the
    width stored for it is 0 and not [NaN]. *)
Lemma viewport_empty_segment_is_zero :
  get (object (snd (makeOptions chromium defaultConfig
         (fresh {["viewport" := VString "x600"]})))) "viewport"
  = VString "x600"
  /\ split "x" "x600" !! 0%nat = Some EmptyString
  /\ ~ numeric EmptyString
  /\ get (object (snd (makeOptions chromium defaultConfig
            (fresh {["viewport" := VString "x600"]})))) "width"
     = VNumber (S754_zero false)
  /\ get (object (snd (makeOptions chromium defaultConfig
            (fresh {["viewport" := VString "x600"]})))) "width"
     <> VNumber NaN.
Proof.
  split; [by vm_compute |]. split; [by vm_compute |].
  split; [apply empty_not_numeric |].
  assert (H : get (object (snd (makeOptions chromium defaultConfig
      (fresh {["viewport" := VString "x600"]})))) "width"
    = VNumber (S754_zero false)) by (by vm_compute).
  split; [exact H |]. rewrite H. discriminate.
Qed.

(** ** The program and the language, on examples *)

Example StringToNumber_examples :
  map StringToNumber
    ["1280"; " 12 "; "1e3"; "0X1f"; "-0"; "1e400"; "0.1";
     "abc"; "12p"; "1,5"; EmptyString; "  "]
  = [of_Z 1280; of_Z 12; of_Z 1000; of_Z 31; S754_zero true; Infinity false;
     S754_finite false 7205759403792794 (-56);
     NaN; NaN; NaN; S754_zero false; S754_zero false].
Proof. by vm_compute. Qed.

(** White space is dropped whatever its code unit, and nothing else is:
    the ideographic space U+3000, the byte order mark U+FEFF, the line
    separator U+2028 and the no-break space U+00A0 are white space; the
    zero width space U+200B and the Mongolian vowel separator U+180E are
    not. *)
Example StringToNumber_white_space :
  map StringToNumber
    [of_units [0x3000]%N +:+ "1280";
     "800" +:+ of_units [0xFEFF]%N;
     of_units [0x2028; 0xA0]%N +:+ "12" +:+ of_units [0x1680; 0x200A; 0x2029]%N;
     of_units [0x205F; 0x202F; 0x2000]%N;
     of_units [0x200B]%N +:+ "12";
     of_units [0x180E]%N +:+ "12";
     "1" +:+ of_units [0x3000]%N +:+ "2"]
  = [of_Z 1280; of_Z 800; of_Z 12; S754_zero false; NaN; NaN; NaN].
Proof. by vm_compute. Qed.

(** String literals are in UTF-8: a character outside of ASCII is its
    code units, and a byte that begins no character is U+FFFD. *)
Example units_examples :
  map units ["1280x800"; "é"; "　12"; "😀"; String "160" "12"]
  = [[49; 50; 56; 48; 120; 56; 48; 48]; [0xE9]; [0x3000; 49; 50];
     [0xD83D; 0xDE00]; [0xFFFD; 49; 50]]%N.
Proof. by vm_compute. Qed.

(** A viewport with white space around its numbers, [" 1280x800 "] with
    U+3000 before and U+FEFF after: the numbers are stored. *)
Example viewport_white_space :
  let viewport := of_units [0x3000]%N +:+ "1280x800" +:+ of_units [0xFEFF]%N in
  let o := object (snd (makeOptions chromium defaultConfig
                          (fresh {["viewport" := VString viewport]}))) in
  (get o "width", get o "height") = (VNumber (of_Z 1280), VNumber (of_Z 800)).
Proof. by vm_compute. Qed.

Example toString_examples :
  map (fun s => Number.toString (StringToNumber s))
    ["1280"; "0.1"; "1e21"; "123456789012345680000"; "1e-7"; "0.000001";
     "9007199254740993"; "5e-324"; "1.7976931348623157e308"; "-1.5"; "abc"]
  = ["1280"; "0.1"; "1e+21"; "123456789012345680000"; "1e-7"; "0.000001";
     "9007199254740992"; "5e-324"; "1.7976931348623157e+308"; "-1.5"; "NaN"].
Proof. by vm_compute. Qed.

Example split_examples :
  map (split "x") ["1280x800"; "1280"; "x600"; "1280x"; "1x2x3"]
  = [["1280"; "800"]; ["1280"]; [EmptyString; "600"]; ["1280"; EmptyString];
     ["1"; "2"; "3"]].
Proof. by vm_compute. Qed.

Example isUrl_examples :
  map isUrl
    ["http://a"; "https://a"; "file:///tmp/a.html"; "data:text/html,a";
     "HTTP://a"; " http://a"; "ftp://a"; "<a href=http://a>"; "koishi.chat"]
  = [true; true; true; true; false; false; false; false; false].
Proof. by vm_compute. Qed.

(** The scenario of the default configuration and no caller options. *)
Example default_resolution :
  let o := object (snd (makeOptions chromium defaultConfig (fresh ∅))) in
  (get o "viewport", get o "width", get o "height", get o "scaleFactor",
   get o "type", o !! "quality", get o "timeout", get o "delay",
   get o "disableAnimations")
  = (VString "1280x800", VNumber (of_Z 1280), VNumber (of_Z 800),
     VNumber (of_Z 2), VString "png", None, VNumber (of_Z 60),
     VNumber (of_Z 0), VBoolean false).
Proof. by vm_compute. Qed.

(** The scenario of a jpeg capture and no quality: the quality is 1. *)
Example jpeg_resolution :
  get (object (snd (makeOptions chromium defaultConfig
         (fresh {["type" := VString "jpeg"]})))) "quality"
  = VNumber (of_Z 1).
Proof. by vm_compute. Qed.

(** A caller's timeout other than 0 is the resolved one. *)
Example timeout_resolution :
  get (object (snd (makeOptions chromium defaultConfig
         (fresh {["timeout" := VNumber (of_Z 30)]})))) "timeout"
  = VNumber (of_Z 30).
Proof. by vm_compute. Qed.

(** A capture of literal content, from the call to the image. *)
Example render_html :
  render chromium "<p>hello</p>" None (fresh ∅)
  = (Returned [],
     {| object := <["inputType" := VString "html"]>
                    (object (snd (makeOptions chromium defaultConfig (fresh ∅))));
        trace :=
          [FindChrome;
           LoggerDebugOptions
             (<["inputType" := VString "html"]>
                (object (snd (makeOptions chromium defaultConfig (fresh ∅)))));
           CaptureBuffer "<p>hello</p>"
             (<["inputType" := VString "html"]>
                (object (snd (makeOptions chromium defaultConfig (fresh ∅)))))] |}).
Proof. by vm_compute. Qed.

(** ** The scheme test of the command *)

Lemma word_spec c : RegExpClass.word c = true <-> WordCharacter c.
Proof.
  unfold WordCharacter. split.
  - destruct c as [[] [] [] [] [] [] [] []]; try discriminate; intros _; in_list.
  - cbn. rewrite !elem_of_cons, elem_of_nil.
    intros H. repeat (destruct H as [-> | H]; [reflexivity |]). done.
Qed.

Lemma plus_spec class : forall input pos k,
  RegExpClass.plus class pos input k = true
  <-> exists a rest,
        input = a ++ rest /\ a <> [] /\ Forall (fun c => class c = true) a
        /\ k (pos + length a) rest = true.
Proof.
  induction input as [| x input IH]; intros pos k; simpl.
  - split; [done |]. intros (a & rest & H & Ha & _). by destruct a.
  - destruct (class x) eqn:Ex.
    + rewrite orb_true_iff, IH. split.
      * intros [(a & rest & -> & Ha & Hc & Hk) | Hk].
        -- exists (x :: a), rest. cbn [length]. rewrite Nat.add_succ_r.
           repeat split; try done. by constructor.
        -- exists [x], input. cbn [length]. rewrite Nat.add_1_r.
           repeat split; try done. by constructor.
      * intros (a & rest & H & Ha & Hc & Hk).
        destruct a as [| y a]; [done |]. injection H as <- ->.
        apply Forall_cons in Hc as [_ Hc]. cbn [length] in Hk.
        rewrite Nat.add_succ_r in Hk.
        destruct a as [| z a].
        -- right. by rewrite Nat.add_0_r in Hk.
        -- left. exists (z :: a), rest. by repeat split.
    + split; [done |]. intros (a & rest & H & Ha & Hc & _).
      destruct a as [| y a]; [done |]. injection H as <- ->.
      apply Forall_cons in Hc as [Hc _]. congruence.
Qed.

Lemma scheme_search_later input : forall pos,
  RegExpClass.search scheme_pattern (S pos) input = false.
Proof. induction input as [| x input IH]; intros pos; simpl; [done | apply IH]. Qed.

(** The scheme test holds of the URLs that start with a scheme. *)
Lemma scheme_exec_spec s :
  RegExpClass.exec scheme_pattern s = true <-> has_scheme s.
Proof.
  unfold RegExpClass.exec, has_scheme.
  assert (H : RegExpClass.search scheme_pattern 0 (chars s)
              = RegExpClass.plus RegExpClass.word 0 (chars s)
                  (fun pos input =>
                     RegExp.matches (RegExp.lit (chars "://")) pos input
                       (fun _ _ => true))).
  { destruct (chars s) as [| x cs]; simpl; [done |].
    rewrite scheme_search_later. apply orb_false_r. }
  rewrite H, plus_spec. split.
  - intros (a & rest & Hs & Ha & Hw & Hm).
    apply matches_lang in Hm as (b & rest' & -> & Hb & _).
    apply lang_lit in Hb as ->.
    exists a, (text rest'). split; [| split; [done |]].
    + rewrite <- (text_chars s), Hs, !text_app. by cbn.
    + eapply Forall_impl; [exact Hw |]. intros c. apply word_spec.
  - intros (scheme & rest & -> & Hne & Hw).
    exists scheme, (chars "://" ++ chars rest). split; [| split; [done | split]].
    + by rewrite !chars_app, chars_text.
    + eapply Forall_impl; [exact Hw |]. intros c. apply word_spec.
    + apply matches_lang. exists (chars "://"), (chars rest).
      split; [done |]. split; [by apply lang_lit | done].
Qed.

(** X1. The scheme test of the action, [/^(\w+):\/\//.exec(url)], finds
    a match exactly in the URLs that start with one or more letters,
    digits or underscores followed by "://"; a scheme with any other
    character in it, or one that does not come first, is none. *)
Theorem scheme_test_iff_has_scheme (url : string) :
  (RegExpClass.exec scheme_pattern url = true <-> has_scheme url)
  /\ (RegExpClass.exec scheme_pattern url = false <-> ~ has_scheme url).
Proof.
  pose proof (scheme_exec_spec url) as H. split; [exact H |].
  rewrite <- H. destruct (RegExpClass.exec _ _); split; congruence.
Qed.

Lemma scheme_test_iff_has_scheme_witness :
  RegExpClass.exec scheme_pattern "git+ssh://koishi.chat" = false.
Proof.
  apply (proj2 (scheme_test_iff_has_scheme "git+ssh://koishi.chat")).
  intros (scheme & rest & H & Hne & Hw).
  apply (f_equal chars) in H. rewrite !chars_app, chars_text in H.
  cbn [chars Stdlib.Strings.String.list_ascii_of_string app] in H.
  assert (Hc : forall c, WordCharacter c -> c <> "+"%char /\ c <> ":"%char).
  { intros c Hc. apply word_spec in Hc. split; intros ->; discriminate Hc. }
  destruct scheme as [| c1 [| c2 [| c3 [| c4 scheme]]]]; [done | ..];
    cbn [app] in H; injection H as ?; subst;
    repeat match goal with
    | H : Forall WordCharacter (_ :: _) |- _ =>
        apply Forall_cons in H as [[? ?]%Hc ?]
    end; done.
Defined.

Lemma scheme_exec_false s :
  RegExpClass.exec scheme_pattern s = false <-> ~ has_scheme s.
Proof.
  rewrite <- scheme_exec_spec. destruct (RegExpClass.exec _ _); split; congruence.
Qed.

(** ** The action, run *)

Lemma action_run w config url st :
  action w config url st
  = match url with
    | Some u =>
        if bool_decide (u = EmptyString)
        then (Returned (Text "Please enter URL."), st)
        else
          match render w (with_scheme u) (Some config) st with
          | (Returned image, st') => (Returned (Image image), st')
          | (Threw e, st') => (Returned (Text (message e)), st')
          end
    | None => (Returned (Text "Please enter URL."), st)
    end.
Proof.
  unfold action. destruct url as [u |]; cbn [optional ToBoolean ToString]; [| done].
  case_bool_decide; cbn [negb]; [done |].
  unfold try_catch, bind, ret, with_scheme.
  destruct (RegExpClass.exec scheme_pattern u); cbn [negb];
    by destruct (render w _ (Some config) st) as [[image | e] st'].
Qed.

(** ** The calls of [render] *)

Lemma makeOptions_trace w config st :
  trace (snd (makeOptions w config st)) = trace st ++ [FindChrome].
Proof.
  rewrite makeOptions_run. cbv zeta.
  destruct (findChrome w) as [path | e]; [| done].
  by destruct (size_step _ _).
Qed.


Lemma render_resolved w urlOrContent config st :
  fst (makeOptions w (default defaultConfig config) st) = Returned tt ->
  render w urlOrContent config st
  = let o := if isUrl urlOrContent
             then object (snd (makeOptions w (default defaultConfig config) st))
             else <["inputType" := VString "html"]>
                    (object (snd (makeOptions w (default defaultConfig config) st))) in
    let tr := trace st
              ++ [FindChrome; LoggerDebugOptions o; CaptureBuffer urlOrContent o] in
    match captureWebsite_buffer w urlOrContent o with
    | Returned image => (Returned image, {| object := o; trace := tr |})
    | Threw error =>
        (Threw (Error "capture website failed."),
         {| object := o; trace := tr ++ [LoggerDebugError error] |})
    end.
Proof.
  intros H. rewrite render_run.
  pose proof (makeOptions_trace w (default defaultConfig config) st) as Ht.
  destruct (makeOptions w (default defaultConfig config) st) as [[[] | e] [o tr]];
    cbn [fst snd trace object] in *; [| done].
  cbv zeta. subst tr. rewrite <- !app_assoc. by cbn.
Qed.

Lemma render_unresolved w urlOrContent config st e :
  fst (makeOptions w (default defaultConfig config) st) = Threw e ->
  render w urlOrContent config st
  = (Threw e, snd (makeOptions w (default defaultConfig config) st)).
Proof.
  intros H. rewrite render_run.
  destruct (makeOptions w (default defaultConfig config) st) as [[[] | e'] st'];
    cbn [fst snd] in *; congruence.
Qed.

(** X9. [render] calls the browser discovery once, first.  If the
    options do not resolve it calls nothing else and throws what
    [makeOptions] threw.  If they resolve it logs the options object and
    then calls the engine, once, with the subject as given and that
    object, which is the object it leaves to the caller; an error of the
    engine is logged as it is, after the call. *)
Theorem render_calls w urlOrContent config st :
  let o := object (snd (render w urlOrContent config st)) in
  match fst (makeOptions w (default defaultConfig config) st) with
  | Returned _ =>
      trace (snd (render w urlOrContent config st))
      = trace st
        ++ [FindChrome; LoggerDebugOptions o; CaptureBuffer urlOrContent o]
        ++ match captureWebsite_buffer w urlOrContent o with
           | Returned _ => []
           | Threw error => [LoggerDebugError error]
           end
  | Threw e =>
      fst (render w urlOrContent config st) = Threw e
      /\ trace (snd (render w urlOrContent config st)) = trace st ++ [FindChrome]
  end.
Proof.
  cbv zeta.
  destruct (fst (makeOptions w (default defaultConfig config) st)) as [[] | e] eqn:E.
  - rewrite render_resolved by done. cbv zeta.
    destruct (captureWebsite_buffer w urlOrContent _) eqn:Ec;
      cbn [fst snd trace object]; rewrite Ec; [by rewrite app_nil_r |].
    by rewrite <- !app_assoc.
  - rewrite (render_unresolved _ _ _ _ e) by done. cbn [fst snd].
    split; [done | apply makeOptions_trace].
Qed.

(** ** The replies of the action *)

Lemma filter_capture_resolved (tr : list event) urlOrContent o more :
  Forall (fun ev => is_capture ev = false) more ->
  filter is_capture
    (tr ++ [FindChrome; LoggerDebugOptions o; CaptureBuffer urlOrContent o] ++ more)
  = filter is_capture tr ++ [CaptureBuffer urlOrContent o].
Proof.
  intros Hm. rewrite !filter_app. cbn.
  assert (filter is_capture more = []) as ->; [| done].
  induction Hm as [| ev more Hev _ IH]; [done |].
  rewrite filter_cons, IH. by rewrite decide_False by (rewrite Hev; exact id).
Qed.

Lemma has_scheme_https u : has_scheme ("https://" +:+ u).
Proof.
  exists (chars "https"), u. split; [done | split; [done |]].
  repeat constructor; unfold WordCharacter; in_list.
Qed.

Lemma has_scheme_with_scheme u : has_scheme (with_scheme u).
Proof.
  unfold with_scheme.
  destruct (RegExpClass.exec scheme_pattern u) eqn:E.
  - by apply scheme_exec_spec.
  - apply has_scheme_https.
Qed.

Lemma isUrl_https u : isUrl ("https://" +:+ u) = true.
Proof. reflexivity. Qed.

(** The action with a URL, once the options resolve. *)
Lemma action_resolved w config u st :
  u <> EmptyString ->
  fst (makeOptions w config st) = Returned tt ->
  action w config (Some u) st
  = let o := if isUrl (with_scheme u)
             then object (snd (makeOptions w config st))
             else <["inputType" := VString "html"]>
                    (object (snd (makeOptions w config st))) in
    let tr := trace st
              ++ [FindChrome; LoggerDebugOptions o; CaptureBuffer (with_scheme u) o] in
    match captureWebsite_buffer w (with_scheme u) o with
    | Returned image => (Returned (Image image), {| object := o; trace := tr |})
    | Threw error =>
        (Returned (Text "capture website failed."),
         {| object := o; trace := tr ++ [LoggerDebugError error] |})
    end.
Proof.
  intros Hu H. rewrite action_run, bool_decide_eq_false_2 by done.
  rewrite render_resolved by done. cbv zeta.
  by destruct (captureWebsite_buffer w (with_scheme u) _).
Qed.

Lemma action_unresolved w config u st e :
  u <> EmptyString ->
  fst (makeOptions w config st) = Threw e ->
  action w config (Some u) st
  = (Returned (Text (message e)), snd (makeOptions w config st)).
Proof.
  intros Hu H. rewrite action_run, bool_decide_eq_false_2 by done.
  by rewrite (render_unresolved _ _ _ _ e) by done.
Qed.

(** X2. Without a URL, missing or empty, the action replies with the
    prompt and does nothing: the options object is as it was and nothing is
    called.  With a URL it goes on to the browser discovery. *)
Theorem action_without_url w config url st :
  (url = None \/ url = Some EmptyString ->
   action w config url st = (Returned (Text "Please enter URL."), st))
  /\ (forall u, url = Some u -> u <> EmptyString ->
      exists more,
        trace (snd (action w config url st)) = trace st ++ FindChrome :: more).
Proof.
  split.
  - intros [-> | ->]; by rewrite action_run.
  - intros u -> Hu.
    destruct (fst (makeOptions w config st)) as [[] | e] eqn:E.
    + rewrite action_resolved by done. cbv zeta.
      destruct (captureWebsite_buffer w (with_scheme u) _);
        cbn [snd trace]; rewrite <- ?app_assoc; eauto.
    + rewrite (action_unresolved _ _ _ _ e) by done. cbn [snd].
      rewrite makeOptions_trace. eauto.
Qed.

Lemma action_without_url_witness :
  action chromium defaultConfig None (fresh ∅)
  = (Returned (Text "Please enter URL."), fresh ∅)
  /\ exists more,
       trace (snd (action chromium defaultConfig (Some "koishi.chat") (fresh ∅)))
       = FindChrome :: more.
Proof.
  split.
  - apply (proj1 (action_without_url chromium defaultConfig None (fresh ∅))).
    by left.
  - apply (proj2 (action_without_url chromium defaultConfig (Some "koishi.chat")
                    (fresh ∅)) "koishi.chat"); [reflexivity | discriminate].
Defined.

(** X3. The action never throws: whatever the URL, the options, the
    configuration and the collaborators do, it returns a reply. *)
Theorem action_never_throws w config url st :
  exists r, fst (action w config url st) = Returned r.
Proof.
  rewrite action_run. destruct url as [u |]; [| by eexists].
  case_bool_decide; [by eexists |].
  by destruct (render w (with_scheme u) (Some config) st) as [[image | e] st'];
    eexists.
Qed.

(** X4. When no browser executable is found the reply of the action is
    the message of the discovery's error, as it is, and the engine is not
    called. *)
Theorem action_browser_not_found w config u st e :
  findChrome w = Threw e ->
  u <> EmptyString ->
  fst (action w config (Some u) st) = Returned (Text (message e))
  /\ trace (snd (action w config (Some u) st)) = trace st ++ [FindChrome].
Proof.
  intros Hf Hu.
  assert (H : fst (makeOptions w config st) = Threw e)
    by (by rewrite makeOptions_run, Hf).
  rewrite (action_unresolved _ _ _ _ e) by done. cbn [fst snd].
  split; [done | apply makeOptions_trace].
Qed.

Lemma action_browser_not_found_witness :
  fst (action no_browser defaultConfig (Some "koishi.chat") (fresh ∅))
  = Returned (Text "No Chrome installations found.")
  /\ trace (snd (action no_browser defaultConfig (Some "koishi.chat") (fresh ∅)))
     = [FindChrome].
Proof.
  apply (action_browser_not_found no_browser defaultConfig "koishi.chat"
           (fresh ∅) (Error "No Chrome installations found."));
    [reflexivity | discriminate].
Defined.

(** X5. Once the options resolve, the action calls the engine once.  If
    the call throws, whatever the error, the reply is the text "capture
    website failed."; if it returns an image, the reply is that image. *)
Theorem action_reply w config u st :
  fst (makeOptions w config st) = Returned tt ->
  u <> EmptyString ->
  exists subject o,
    filter is_capture (trace (snd (action w config (Some u) st)))
    = filter is_capture (trace st) ++ [CaptureBuffer subject o]
    /\ (forall error, captureWebsite_buffer w subject o = Threw error ->
          fst (action w config (Some u) st)
          = Returned (Text "capture website failed."))
    /\ (forall image, captureWebsite_buffer w subject o = Returned image ->
          fst (action w config (Some u) st) = Returned (Image image)).
Proof.
  intros H Hu. rewrite action_resolved by done. cbv zeta.
  set (o := if isUrl (with_scheme u) then _ else _).
  exists (with_scheme u), o.
  destruct (captureWebsite_buffer w (with_scheme u) o) as [image | error];
    cbn [fst snd trace]; (split; [| split; congruence]).
  - rewrite <- (app_nil_r [_; _; _]).
    by apply filter_capture_resolved.
  - rewrite <- app_assoc. apply filter_capture_resolved. by repeat constructor.
Qed.

Lemma action_reply_witness :
  fst (action broken_engine defaultConfig (Some "koishi.chat") (fresh ∅))
  = Returned (Text "capture website failed.").
Proof.
  destruct (action_reply broken_engine defaultConfig "koishi.chat" (fresh ∅))
    as (subject & o & _ & Herror & _).
  - vm_compute. reflexivity.
  - discriminate.
  - exact (Herror _ eq_refl).
Defined.

(** X6. The subject that the action passes on is the URL as given if it
    starts with a scheme, and "https://" followed by the URL if it does
    not: every subject that reaches the engine starts with a scheme. *)
Theorem action_subject w config u st :
  fst (makeOptions w config st) = Returned tt ->
  u <> EmptyString ->
  exists subject o,
    filter is_capture (trace (snd (action w config (Some u) st)))
    = filter is_capture (trace st) ++ [CaptureBuffer subject o]
    /\ (has_scheme u /\ subject = u
        \/ ~ has_scheme u /\ subject = "https://" +:+ u)
    /\ has_scheme subject.
Proof.
  intros H Hu. rewrite action_resolved by done. cbv zeta.
  set (o := if isUrl (with_scheme u) then _ else _).
  exists (with_scheme u), o. split; [| split].
  - destruct (captureWebsite_buffer w (with_scheme u) o) as [image | error];
      cbn [snd trace].
    + rewrite <- (app_nil_r [_; _; _]).
      by apply filter_capture_resolved.
    + rewrite <- app_assoc. apply filter_capture_resolved. by repeat constructor.
  - unfold with_scheme. destruct (RegExpClass.exec scheme_pattern u) eqn:E.
    + left. split; [by apply scheme_exec_spec | done].
    + right. split; [by apply scheme_exec_false | done].
  - apply has_scheme_with_scheme.
Qed.

Lemma action_subject_witness :
  exists o,
    filter is_capture
      (trace (snd (action chromium defaultConfig (Some "koishi.chat") (fresh ∅))))
    = [CaptureBuffer "https://koishi.chat" o].
Proof.
  destruct (action_subject chromium defaultConfig "koishi.chat" (fresh ∅))
    as (subject & o & Htrace & [[Hs _] | [_ ->]] & _).
  - vm_compute. reflexivity.
  - discriminate.
  - apply scheme_exec_spec in Hs. discriminate Hs.
  - exists o. exact Htrace.
Defined.

(** ** What the action has captured as literal content *)

(** X7. Once the options resolve, the action leaves [inputType] "html"
    exactly for a URL that starts with a scheme and of which [isUrl] is
    false, "ftp://..." or "HTTP://..." say: such a URL is captured as
    literal content.  In every other case, a URL with no scheme among
    them, the property is not assigned. *)
Theorem action_inputType w config u st :
  fst (makeOptions w config st) = Returned tt ->
  u <> EmptyString ->
  (has_scheme u -> isUrl u = false ->
   object (snd (action w config (Some u) st)) !! "inputType"
   = Some (VString "html"))
  /\ (~ has_scheme u \/ isUrl u = true ->
      object (snd (action w config (Some u) st)) !! "inputType"
      = object st !! "inputType").
Proof.
  intros H Hu. rewrite action_resolved by done. cbv zeta.
  assert (Ho : forall o,
    object (snd (match captureWebsite_buffer w (with_scheme u) o with
                 | Returned image =>
                     (Returned (Image image),
                      {| object := o;
                         trace := trace st ++ [FindChrome; LoggerDebugOptions o;
                                               CaptureBuffer (with_scheme u) o] |})
                 | Threw error =>
                     (Returned (Text "capture website failed."),
                      {| object := o;
                         trace := (trace st ++ [FindChrome; LoggerDebugOptions o;
                                   CaptureBuffer (with_scheme u) o])
                                  ++ [LoggerDebugError error] |})
                 end)) = o).
  { intros o. by destruct (captureWebsite_buffer w (with_scheme u) o). }
  rewrite Ho. clear Ho.
  pose proof (lookup_makeOptions_frame w config st "inputType") as Hframe.
  unfold with_scheme. split.
  - intros Hs Hi. apply scheme_exec_spec in Hs. rewrite Hs, Hi.
    apply lookup_insert_eq.
  - intros [Hs | Hi].
    + apply scheme_exec_false in Hs. rewrite Hs, isUrl_https. by apply Hframe.
    + destruct (RegExpClass.exec scheme_pattern u);
        rewrite ?Hi, ?isUrl_https; by apply Hframe.
Qed.

Lemma action_inputType_witness :
  object (snd (action chromium defaultConfig (Some "ftp://koishi.chat") (fresh ∅)))
    !! "inputType"
  = Some (VString "html").
Proof.
  destruct (action_inputType chromium defaultConfig "ftp://koishi.chat"
              (fresh ∅)) as [H _].
  - vm_compute. reflexivity.
  - discriminate.
  - apply H; [| reflexivity].
    exists (chars "ftp"), "koishi.chat". split; [reflexivity |].
    split; [discriminate |]. repeat constructor; unfold WordCharacter; in_list.
Defined.

Lemma has_scheme_data u :
  has_scheme u -> starts_with "data:" u -> starts_with "data://" u.
Proof.
  intros (scheme & rest & -> & Hne & Hw) [tail Ht].
  assert (Hc : forall c, WordCharacter c -> c <> ":"%char).
  { intros c Hc ->. apply word_spec in Hc. discriminate Hc. }
  apply (f_equal chars) in Ht. rewrite !chars_app, chars_text in Ht.
  cbn [chars Stdlib.Strings.String.list_ascii_of_string app] in Ht.
  destruct scheme as [| c1 [| c2 [| c3 [| c4 [| c5 scheme]]]]]; [done | ..];
    cbn [app] in Ht; injection Ht as ?; subst;
    repeat match goal with
    | H : Forall WordCharacter (_ :: _) |- _ =>
        apply Forall_cons in H as [?%Hc ?]
    end; try done.
  exists rest. done.
Qed.

(** X8. A [data:] URI reaches the engine as such only if it starts with
    "data://": any other, "data:text/html,..." say, has no scheme for the
    action and is passed on with "https://" before it. *)
Theorem action_data_uri w config u st :
  fst (makeOptions w config st) = Returned tt ->
  u <> EmptyString ->
  exists subject o,
    filter is_capture (trace (snd (action w config (Some u) st)))
    = filter is_capture (trace st) ++ [CaptureBuffer subject o]
    /\ (starts_with "data:" subject -> subject = u /\ starts_with "data://" u)
    /\ (starts_with "data:" u -> ~ starts_with "data://" u ->
        subject = "https://" +:+ u).
Proof.
  intros H Hu. rewrite action_resolved by done. cbv zeta.
  set (o := if isUrl (with_scheme u) then _ else _).
  exists (with_scheme u), o. split; [| split].
  - destruct (captureWebsite_buffer w (with_scheme u) o) as [image | error];
      cbn [snd trace].
    + rewrite <- (app_nil_r [_; _; _]).
      by apply filter_capture_resolved.
    + rewrite <- app_assoc. apply filter_capture_resolved. by repeat constructor.
  - unfold with_scheme. destruct (RegExpClass.exec scheme_pattern u) eqn:E.
    + intros Hd. split; [done |]. apply has_scheme_data; [| done].
      by apply scheme_exec_spec.
    + intros [tail Ht]. discriminate Ht.
  - intros Hd Hn. unfold with_scheme.
    destruct (RegExpClass.exec scheme_pattern u) eqn:E; [| done].
    destruct Hn. apply has_scheme_data; [| done]. by apply scheme_exec_spec.
Qed.

Lemma action_data_uri_witness :
  exists o,
    filter is_capture
      (trace (snd (action chromium defaultConfig (Some "data:text/html,hello")
                     (fresh ∅))))
    = [CaptureBuffer "https://data:text/html,hello" o].
Proof.
  destruct (action_data_uri chromium defaultConfig "data:text/html,hello"
              (fresh ∅))
    as (subject & o & Htrace & _ & Hs).
  - vm_compute. reflexivity.
  - discriminate.
  - exists o. rewrite Htrace, Hs; [reflexivity | by exists "text/html,hello" |].
    intros [tail Ht]. discriminate Ht.
Defined.

(** ** The options [makeOptions] leaves, whatever the caller gave *)

Lemma size_step_outcome v (o o' : Options) :
  fst (size_step v o) = fst (size_step v o').
Proof. unfold size_step. destruct (ToBoolean v); [| done]. by destruct v. Qed.

Lemma makeOptions_outcome w config st :
  fst (makeOptions w config st)
  = match findChrome w with
    | Threw e => Threw e
    | Returned _ =>
        fst (size_step (get (with_defaults config (object st)) "viewport") ∅)
    end.
Proof.
  rewrite makeOptions_run. cbv zeta.
  destruct (findChrome w) as [path | e]; [| done].
  rewrite (size_step_outcome _ ∅
    (<["launchOptions" := VLaunchOptions (launch_options config path)]>
       (with_defaults config (object st)))).
  by destruct (size_step _ _).
Qed.

(** [makeOptions] returns if a browser is found and the viewport, once
    defaulted, is a string. *)
Lemma makeOptions_returned_viewport w config st :
  fst (makeOptions w config st) = Returned tt ->
  exists path s,
    findChrome w = Returned path
    /\ get (with_defaults config (object st)) "viewport" = VString s
    /\ s <> EmptyString.
Proof.
  rewrite makeOptions_outcome.
  destruct (findChrome w) as [path | e]; [| done].
  pose proof (with_defaults_viewport_truthy config (object st)) as Ht.
  unfold size_step. rewrite Ht.
  destruct (get (with_defaults config (object st)) "viewport") as [| b | n | s | l];
    try done.
  intros _. exists path, s. split; [done | split; [done |]].
  intros ->. discriminate Ht.
Qed.

Lemma get_with_defaults_rule config (o : Options) key d :
  (key, d) ∈ defaults config ->
  get (with_defaults config o) key
  = if ToBoolean (get o key) then get o key else d.
Proof.
  unfold defaults. rewrite !elem_of_cons, elem_of_nil.
  intros [[= -> ->] | [[= -> ->] | [[= -> ->] | [[= -> ->] | [[= -> ->] | [[= -> ->] | []]]]]]];
    unfold with_defaults;
    by repeat first
      [ rewrite get_default_prop_eq
      | rewrite get_default_prop_ne by done
      | rewrite get_default_quality_ne by done ].
Qed.

(** X11. Viewport, scaleFactor, type, timeout, delay and disableAnimations
    are defaulted on falsiness: [makeOptions] leaves the caller's value if
    it is truthy and the default if it is not, be it absent, [0], [NaN],
    the empty string or [false]; and this whether the call returns or
    throws. *)
Theorem makeOptions_defaults w config st :
  Forall (fun '(key, d) =>
      get (object (snd (makeOptions w config st))) key
      = if ToBoolean (get (object st) key) then get (object st) key else d)
    (defaults config).
Proof.
  apply Forall_forall. intros [key d] Hin.
  rewrite get_makeOptions_defaults; [by apply get_with_defaults_rule | ..];
    intros ->; unfold defaults in Hin;
    repeat (apply elem_of_cons in Hin as [[=] | Hin]); by apply elem_of_nil in Hin.
Qed.

(** X12. What the engine is given is populated: after [makeOptions] has
    returned, the viewport is a string and not the empty one, type and
    timeout are truthy (the timeout is never 0), scaleFactor, delay and
    disableAnimations are defined, the quality is truthy unless the type
    is "png", launchOptions is the launch options object, and width and
    height are numbers. *)
Theorem makeOptions_populated w config st :
  fst (makeOptions w config st) = Returned tt ->
  let o' := object (snd (makeOptions w config st)) in
  (exists s, get o' "viewport" = VString s /\ s <> EmptyString)
  /\ ToBoolean (get o' "type") = true
  /\ ToBoolean (get o' "timeout") = true
  /\ get o' "scaleFactor" <> VUndefined
  /\ get o' "delay" <> VUndefined
  /\ get o' "disableAnimations" <> VUndefined
  /\ (get o' "type" <> VString "png" -> ToBoolean (get o' "quality") = true)
  /\ (exists l, get o' "launchOptions" = VLaunchOptions l)
  /\ (exists x, get o' "width" = VNumber x)
  /\ (exists y, get o' "height" = VNumber y).
Proof.
  intros H. cbv zeta.
  destruct (makeOptions_returned_viewport w config st H) as (path & s & Hf & Hv & Hs).
  assert (Hrule : forall key d, (key, d) ∈ defaults config ->
    get (object (snd (makeOptions w config st))) key
    = if ToBoolean (get (object st) key) then get (object st) key else d).
  { intros key d Hin.
    rewrite get_makeOptions_defaults; [by apply get_with_defaults_rule | ..];
      intros ->; unfold defaults in Hin;
      repeat (apply elem_of_cons in Hin as [[=] | Hin]); by apply elem_of_nil in Hin. }
  assert (Hview : get (object (snd (makeOptions w config st))) "viewport" = VString s).
  { by rewrite get_makeOptions_defaults. }
  destruct (makeOptions_size w config st path s Hf Hview) as (_ & Hw & Hh).
  split; [by exists s |].
  split.
  { rewrite (Hrule "type" (VString "png")) by (unfold defaults; in_list).
    by destruct (ToBoolean (get (object st) "type")) eqn:E. }
  split.
  { rewrite (Hrule "timeout" (VNumber (of_Z 60))) by (unfold defaults; in_list).
    by destruct (ToBoolean (get (object st) "timeout")) eqn:E. }
  split.
  { rewrite (Hrule "scaleFactor" _) by (unfold defaults; in_list).
    destruct (ToBoolean (get (object st) "scaleFactor")) eqn:E; [| done].
    intros Hu. rewrite Hu in E. discriminate E. }
  split.
  { rewrite (Hrule "delay" _) by (unfold defaults; in_list).
    destruct (ToBoolean (get (object st) "delay")) eqn:E; [| done].
    intros Hu. rewrite Hu in E. discriminate E. }
  split.
  { rewrite (Hrule "disableAnimations" _) by (unfold defaults; in_list).
    destruct (ToBoolean (get (object st) "disableAnimations")) eqn:E; [| done].
    intros Hu. rewrite Hu in E. discriminate E. }
  split.
  { pose proof (quality_resolved w config st) as Hq. cbv zeta in Hq.
    rewrite Hq. intros Ht.
    destruct (ToBoolean (get (object st) "quality")) eqn:E; cbn [negb andb]; [done |].
    destruct (get (object (snd (makeOptions w config st))) "type") as [| | | t |];
      cbn [strict_not_equal_string]; try done.
    case_bool_decide; [congruence | done]. }
  split.
  { exists (launch_options config path). by apply get_makeOptions_launchOptions. }
  split; eauto.
Qed.

Lemma makeOptions_populated_witness :
  ToBoolean (get (object (snd (makeOptions chromium defaultConfig
       (fresh {["timeout" := VNumber (of_Z 0)]})))) "timeout")
  = true.
Proof.
  destruct (makeOptions_populated chromium defaultConfig
              (fresh {["timeout" := VNumber (of_Z 0)]}))
    as (_ & _ & Ht & _).
  - vm_compute. reflexivity.
  - exact Ht.
Defined.

(** X13. When a browser is found, the launch options have its path as
    the executable and the default viewport of the configuration, as it
    is, for the browser's window: launch options that the caller supplied
    are replaced, and the caller's viewport does not enter. *)
Theorem makeOptions_launch_browser w config st path :
  findChrome w = Returned path ->
  exists l,
    get (object (snd (makeOptions w config st))) "launchOptions" = VLaunchOptions l
    /\ Launch.executablePath l = path
    /\ Launch.defaultViewport l = defaultViewport (browser config).
Proof.
  intros Hf. exists (launch_options config path).
  split; [by apply get_makeOptions_launchOptions | done].
Qed.

Lemma makeOptions_launch_browser_witness :
  exists l,
    get (object (snd (makeOptions chromium defaultConfig
           (fresh {["viewport" := VString "640x480"]})))) "launchOptions"
    = VLaunchOptions l
    /\ Launch.executablePath l = "/usr/bin/chromium"
    /\ Launch.defaultViewport l = defaultViewport (browser defaultConfig).
Proof.
  apply (makeOptions_launch_browser chromium defaultConfig
           (fresh {["viewport" := VString "640x480"]}) "/usr/bin/chromium").
  reflexivity.
Defined.

(** X14. When no browser is found [makeOptions] throws the error of the
    discovery with the caller's object already defaulted: launchOptions,
    width and height are as the caller had them, and every other property
    is what a resolution with a browser would leave. *)
Theorem makeOptions_browser_not_found w config st e :
  findChrome w = Threw e ->
  fst (makeOptions w config st) = Threw e
  /\ Forall (fun key =>
         object (snd (makeOptions w config st)) !! key = object st !! key)
       ["launchOptions"; "width"; "height"]
  /\ (forall w' key, key ∉ ["launchOptions"; "width"; "height"] ->
        object (snd (makeOptions w config st)) !! key
        = object (snd (makeOptions w' config st)) !! key).
Proof.
  intros Hf. split; [by rewrite makeOptions_run, Hf |]. split.
  - rewrite makeOptions_run, Hf. cbv zeta. cbn [snd object].
    repeat (apply Forall_cons; split; [by apply lookup_with_defaults_ne |]).
    apply Forall_nil. done.
  - intros w' key Hk.
    repeat (apply not_elem_of_cons in Hk as [? Hk]).
    by rewrite !lookup_makeOptions_defaults.
Qed.

Lemma makeOptions_browser_not_found_witness :
  fst (makeOptions no_browser defaultConfig (fresh ∅))
  = Threw (Error "No Chrome installations found.")
  /\ object (snd (makeOptions no_browser defaultConfig (fresh ∅))) !! "timeout"
     = object (snd (makeOptions chromium defaultConfig (fresh ∅))) !! "timeout".
Proof.
  destruct (makeOptions_browser_not_found no_browser defaultConfig (fresh ∅)
              (Error "No Chrome installations found.") eq_refl)
    as (Hr & _ & Hsame).
  split; [exact Hr |]. apply Hsame.
  repeat (apply not_elem_of_cons; split; [done |]). apply not_elem_of_nil.
Defined.

(** X15. A viewport that is truthy and not a string, a number say, makes
    [makeOptions] throw a [TypeError] after the launch options are
    stored: width and height are not assigned, [render] throws the same
    error, not the generic one, and the engine is not called. *)
Theorem makeOptions_viewport_not_a_string w urlOrContent config st path v :
  findChrome w = Returned path ->
  get (object st) "viewport" = v ->
  ToBoolean v = true ->
  (forall s, v <> VString s) ->
  exists e,
    name e = "TypeError"
    /\ fst (makeOptions w (default defaultConfig config) st) = Threw e
    /\ Forall (fun key =>
           object (snd (makeOptions w (default defaultConfig config) st)) !! key
           = object st !! key)
         ["width"; "height"]
    /\ fst (render w urlOrContent config st) = Threw e
    /\ filter is_capture (trace (snd (render w urlOrContent config st)))
       = filter is_capture (trace st).
Proof.
  intros Hf Hv Ht Hs.
  set (cfg := default defaultConfig config).
  assert (Hd : get (with_defaults cfg (object st)) "viewport" = v).
  { by rewrite get_with_defaults_viewport, Hv, Ht. }
  exists (TypeError "options.viewport.split is not a function").
  assert (Hrun : makeOptions w cfg st
    = (Threw (TypeError "options.viewport.split is not a function"),
       {| object := <["launchOptions" := VLaunchOptions (launch_options cfg path)]>
                      (with_defaults cfg (object st));
          trace := trace st ++ [FindChrome] |})).
  { rewrite makeOptions_run, Hf. cbv zeta. rewrite Hd. unfold size_step. rewrite Ht.
    destruct v as [| b | n | s | l]; try done. by destruct (Hs s). }
  split; [done |]. split; [by rewrite Hrun |]. split.
  - rewrite Hrun. cbn [snd object].
    repeat (apply Forall_cons; split;
      [by rewrite lookup_insert_ne, lookup_with_defaults_ne |]).
    apply Forall_nil. done.
  - rewrite (render_unresolved _ _ _ _ (TypeError "options.viewport.split is not a function"))
      by (by fold cfg; rewrite Hrun).
    fold cfg. rewrite Hrun. cbn [fst snd trace]. split; [done |].
    rewrite filter_app. cbn. apply app_nil_r.
Qed.

Lemma makeOptions_viewport_not_a_string_witness :
  exists e,
    name e = "TypeError"
    /\ fst (render chromium "https://koishi.chat" None
              (fresh {["viewport" := VNumber (of_Z 800)]}))
       = Threw e.
Proof.
  destruct (makeOptions_viewport_not_a_string chromium "https://koishi.chat" None
              (fresh {["viewport" := VNumber (of_Z 800)]})
              "/usr/bin/chromium" (VNumber (of_Z 800)))
    as (e & Hn & _ & _ & Hr & _).
  - reflexivity.
  - vm_compute. reflexivity.
  - vm_compute. reflexivity.
  - discriminate.
  - exists e. split; [exact Hn | exact Hr].
Defined.

(** ** An options object used again *)

Lemma render_resolved_object w urlOrContent config st :
  fst (makeOptions w (default defaultConfig config) st) = Returned tt ->
  object (snd (render w urlOrContent config st))
  = if isUrl urlOrContent
    then object (snd (makeOptions w (default defaultConfig config) st))
    else <["inputType" := VString "html"]>
           (object (snd (makeOptions w (default defaultConfig config) st))).
Proof.
  intros H. rewrite render_resolved by done. cbv zeta.
  by destruct (captureWebsite_buffer w urlOrContent _).
Qed.

(** X10. [inputType] stays.  After literal content has been rendered with
    an options object, a URL rendered with the same object reaches the
    engine with [inputType] "html" still in it: [render] sets the property
    for content and never clears it for a URL. *)
Theorem render_inputType_stays w content url config st :
  fst (makeOptions w (default defaultConfig config) st) = Returned tt ->
  isUrl content = false ->
  isUrl url = true ->
  exists o,
    filter is_capture
      (trace (snd (render w url config (snd (render w content config st)))))
    = filter is_capture (trace (snd (render w content config st)))
      ++ [CaptureBuffer url o]
    /\ o !! "inputType" = Some (VString "html").
Proof.
  intros H Hc Hu.
  set (cfg := default defaultConfig config) in *.
  set (st1 := snd (render w content config st)).
  assert (Ho1 : object st1
                = <["inputType" := VString "html"]> (object (snd (makeOptions w cfg st)))).
  { unfold st1. by rewrite render_resolved_object, Hc. }
  destruct (makeOptions_returned_viewport w cfg st H) as (path & s & Hf & Hv & Hs).
  assert (H1 : fst (makeOptions w cfg st1) = Returned tt).
  { rewrite makeOptions_outcome, Hf.
    assert (Hg : get (object st1) "viewport" = VString s).
    { rewrite Ho1, get_insert_ne by done. by rewrite get_makeOptions_defaults. }
    rewrite get_with_defaults_viewport, Hg. cbn [ToBoolean].
    rewrite bool_decide_eq_false_2 by done. cbn [negb]. unfold size_step.
    cbn [ToBoolean]. by rewrite bool_decide_eq_false_2 by done. }
  exists (object (snd (makeOptions w cfg st1))). split.
  - rewrite render_resolved by done. cbv zeta. rewrite Hu.
    destruct (captureWebsite_buffer w url _) as [image | error]; cbn [snd trace].
    + rewrite <- (app_nil_r [_; _; _]). by apply filter_capture_resolved.
    + rewrite <- app_assoc. apply filter_capture_resolved. by repeat constructor.
  - rewrite lookup_makeOptions_frame by done. rewrite Ho1. apply lookup_insert_eq.
Qed.

Lemma render_inputType_stays_witness :
  exists o,
    filter is_capture
      (trace (snd (render chromium "https://koishi.chat" None
                     (snd (render chromium "<p>hello</p>" None (fresh ∅))))))
    = filter is_capture (trace (snd (render chromium "<p>hello</p>" None (fresh ∅))))
      ++ [CaptureBuffer "https://koishi.chat" o]
    /\ o !! "inputType" = Some (VString "html").
Proof.
  apply (render_inputType_stays chromium "<p>hello</p>" "https://koishi.chat" None
           (fresh ∅)).
  - vm_compute. reflexivity.
  - reflexivity.
  - reflexivity.
Defined.
